(** * Build-time OG image generator: a shallow embedding of
    [scripts/generate-og-images.ts] and the properties of its asset
    resolution, template construction and batch pipeline.

    The script is effectful: it reads and writes files, talks to an HTTPS
    server, calls two rendering libraries and prints to the console.  The
    embedding threads an explicit [World] (file system and event trace)
    through every operation, takes the behaviour of the outside world (the
    server, the libraries, the platform's path functions) from an [Env]
    record, and returns thrown exceptions as values. *)

From Stdlib Require Import ZArith Ascii.
From Stdlib.Strings Require Import Byte.
From stdpp Require Import gmap strings list pretty.

Local Open Scope Z_scope.

(** ** Byte buffers and their base64 text *)

Abbreviation bytes := (list byte).

Definition b64_alphabet : string :=
  "ABCDEFGHIJKLMNOPQRSTUVWXYZabcdefghijklmnopqrstuvwxyz0123456789+/".

Definition b64_char (n : N) : ascii :=
  default "="%char (String.get (N.to_nat n) b64_alphabet).

(** [Buffer.prototype.toString('base64')]: the RFC 4648 alphabet, three bytes
    to four characters, with [=] padding on the last group. *)
Fixpoint base64 (bs : bytes) : string :=
  match bs with
  | [] => ""
  | [a] =>
      let x := Byte.to_N a in
      String (b64_char (x / 4))
        (String (b64_char ((x mod 4) * 16)) "==")
  | [a; b] =>
      let x := Byte.to_N a in
      let y := Byte.to_N b in
      String (b64_char (x / 4))
        (String (b64_char ((x mod 4) * 16 + y / 16))
           (String (b64_char ((y mod 16) * 4)) "="))
  | a :: b :: c :: rest =>
      let x := Byte.to_N a in
      let y := Byte.to_N b in
      let z := Byte.to_N c in
      String (b64_char (x / 4))
        (String (b64_char ((x mod 4) * 16 + y / 16))
           (String (b64_char ((y mod 16) * 4 + z / 64))
              (String (b64_char (z mod 64)) (base64 rest))))
  end%N.

(** ** JavaScript string helpers used by the script *)

(** [String.prototype.toLowerCase] on the ASCII letters.  The four extensions
    the script recognises contain no letter that a non-ASCII character
    lowercases to, so the ASCII mapping decides the same table lookups. *)
Definition lower_ascii (c : ascii) : ascii :=
  let n := N_of_ascii c in
  if ((65 <=? n) && (n <=? 90))%N then ascii_of_N (n + 32) else c.

Fixpoint toLowerCase (s : string) : string :=
  match s with
  | EmptyString => EmptyString
  | String c s' => String (lower_ascii c) (toLowerCase s')
  end.

(** [s.split(sep)] for a one-character separator: never the empty array. *)
Fixpoint split (sep : ascii) (s : string) : list string :=
  match s with
  | EmptyString => [EmptyString]
  | String c s' =>
      if Ascii.eqb c sep then EmptyString :: split sep s'
      else match split sep s' with
           | h :: t => String c h :: t
           | [] => [String c EmptyString]
           end
  end.

(** [Array.prototype.pop]: the last element, [undefined] on the empty array. *)
Definition pop (l : list string) : option string := last l.

(** [s.includes(t)] *)
Fixpoint includes (s t : string) : bool :=
  String.prefix t s ||
  match s with
  | EmptyString => false
  | String _ s' => includes s' t
  end.

(** [c.repeat(n)] *)
Fixpoint repeat_str (s : string) (n : nat) : string :=
  match n with
  | O => ""
  | S n' => s +:+ repeat_str s n'
  end.

(** ** Page configurations *)

Record AccentColors := mkAccent {
  start : string;
  middle : string;
  end_ : string;
}.

Record PageConfig := mkPage {
  slug : string;
  title : string;
  subtitle : string;
  description : string;
  badge : string;
  bgImage : option string;
  accentColors : option AccentColors;
}.

(** The page list the script ships with. *)
Definition PAGES : list PageConfig :=
  [ mkPage "home" "Dynamic OG Generator" "Build-Time Social Media Images"
      "Generate beautiful Open Graph images at build time for Next.js static export projects. No server required."
      "github.com" None None;
    mkPage "docs" "Documentation" "Setup & Configuration Guide"
      "Learn how to integrate the Dynamic OG Generator into your Next.js project with step-by-step instructions."
      "docs" None (Some (mkAccent "#3b82f6" "#8b5cf6" "#ec4899"));
    mkPage "blog-getting-started" "Getting Started" "Your First OG Image in 5 Minutes"
      "A quick tutorial on creating professional social media preview images for your static website."
      "blog" None (Some (mkAccent "#10b981" "#14b8a6" "#06b6d4")) ].

Definition OG_WIDTH : Z := 1200.
Definition OG_HEIGHT : Z := 630.

(** ** The visual tree *)

(** A style value is a string, an integer, or a decimal literal
    [mantissa * 10^-scale] (only ever copied, never computed with). *)
Inductive StyleValue :=
| Str (s : string)
| Num (n : Z)
| Dec (mantissa : Z) (scale : nat).

Abbreviation Style := (list (string * StyleValue)).

(** [{ type, props: { src?, style, children? } }] *)
Inductive Node : Type :=
| Element (type : string) (src : option string) (style : Style)
    (children : Children)
with Children : Type :=
| NoChildren
| TextChild (s : string)
| NodeChildren (l : list Node).

Definition node_type (n : Node) : string :=
  match n with Element t _ _ _ => t end.
Definition node_src (n : Node) : option string :=
  match n with Element _ s _ _ => s end.
Definition node_style (n : Node) : Style :=
  match n with Element _ _ st _ => st end.
Definition node_children (n : Node) : Children :=
  match n with Element _ _ _ c => c end.

(** [node.props.children[i]] *)
Definition child (i : nat) (n : Node) : option Node :=
  match node_children n with
  | NodeChildren l => l !! i
  | _ => None
  end.

(** [node.props.style[key]] *)
Fixpoint style_get (key : string) (st : Style) : option StyleValue :=
  match st with
  | [] => None
  | (k, v) :: st' => if decide (k = key) then Some v else style_get key st'
  end.

Definition DEFAULT_ACCENT : AccentColors :=
  mkAccent "#e26b34" "#336851" "#1b3c65".

(** [page.accentColors || { ...defaults }]: an object is always truthy. *)
Definition resolve_colors (page : PageConfig) : AccentColors :=
  match accentColors page with
  | Some c => c
  | None => DEFAULT_ACCENT
  end.

Definition divider_gradient (colors : AccentColors) : string :=
  "linear-gradient(90deg, " +:+ start colors +:+ " 0%, " +:+ middle colors
    +:+ " 50%, " +:+ end_ colors +:+ " 100%)".

Definition createOGTemplate (page : PageConfig) (bgImageDataUrl : string)
  : Node :=
  let colors := resolve_colors page in
  Element "div" None
    [ ("width", Str "100%"); ("height", Str "100%"); ("display", Str "flex");
      ("alignItems", Str "center"); ("justifyContent", Str "center");
      ("position", Str "relative"); ("fontFamily", Str "Montserrat");
      ("overflow", Str "hidden") ]
    (NodeChildren
       [ (* layer 1: background image *)
         Element "img" (Some bgImageDataUrl)
           [ ("position", Str "absolute"); ("top", Num 0); ("left", Num 0);
             ("width", Str "100%"); ("height", Str "100%");
             ("objectFit", Str "cover") ]
           NoChildren;
         (* layer 2: dark overlay *)
         Element "div" None
           [ ("position", Str "absolute"); ("top", Num 0); ("left", Num 0);
             ("right", Num 0); ("bottom", Num 0);
             ("background", Str "linear-gradient(135deg, rgba(26,26,46,0.88) 0%, rgba(22,33,62,0.85) 50%, rgba(15,52,96,0.82) 100%)") ]
           NoChildren;
         (* layer 3: glass card *)
         Element "div" None
           [ ("width", Num 1100); ("height", Num 550);
             ("borderRadius", Num 32); ("padding", Str "48px 56px");
             ("display", Str "flex"); ("flexDirection", Str "column");
             ("alignItems", Str "center"); ("justifyContent", Str "center");
             ("position", Str "relative");
             ("background", Str "linear-gradient(145deg, rgba(255,255,255,0.12) 0%, rgba(255,255,255,0.05) 100%)");
             ("border", Str "1px solid rgba(255,255,255,0.18)");
             ("boxShadow", Str "0 25px 50px -12px rgba(0,0,0,0.5)") ]
           (NodeChildren
              [ (* layer 4: glossy overlay *)
                Element "div" None
                  [ ("position", Str "absolute"); ("top", Num 0);
                    ("left", Num 0); ("right", Num 0);
                    ("height", Str "50%");
                    ("borderRadius", Str "32px 32px 0 0");
                    ("background", Str "linear-gradient(180deg, rgba(255,255,255,0.15) 0%, rgba(255,255,255,0.02) 60%, transparent 100%)") ]
                  NoChildren;
                (* badge *)
                Element "div" None
                  [ ("position", Str "absolute"); ("top", Num 28);
                    ("display", Str "flex"); ("padding", Str "10px 28px");
                    ("borderRadius", Num 50);
                    ("background", Str "rgba(255,255,255,0.15)");
                    ("border", Str "1px solid rgba(255,255,255,0.25)");
                    ("fontSize", Num 20); ("fontWeight", Num 500);
                    ("color", Str "rgba(255,255,255,0.9)");
                    ("letterSpacing", Str "0.5px") ]
                  (TextChild (badge page));
                (* title *)
                Element "div" None
                  [ ("marginTop", Num 32); ("fontSize", Num 64);
                    ("fontWeight", Num 700); ("color", Str "#ffffff");
                    ("textAlign", Str "center"); ("lineHeight", Dec 11 1);
                    ("letterSpacing", Str "-1px") ]
                  (TextChild (title page));
                (* subtitle *)
                Element "div" None
                  [ ("marginTop", Num 8); ("fontSize", Num 32);
                    ("fontWeight", Num 500);
                    ("color", Str "rgba(255,255,255,0.85)");
                    ("textAlign", Str "center"); ("lineHeight", Dec 13 1) ]
                  (TextChild (subtitle page));
                (* divider *)
                Element "div" None
                  [ ("marginTop", Num 32); ("width", Num 120);
                    ("height", Num 3); ("borderRadius", Num 2);
                    ("background", Str (divider_gradient colors)) ]
                  NoChildren;
                (* description *)
                Element "div" None
                  [ ("marginTop", Num 28); ("maxWidth", Num 900);
                    ("fontSize", Num 24); ("fontWeight", Num 400);
                    ("color", Str "rgba(255,255,255,0.7)");
                    ("textAlign", Str "center"); ("lineHeight", Dec 15 1) ]
                  (TextChild (description page)) ]) ]).

(** The divider is the fifth child of the card, the card the third child of
    the root. *)
Definition divider (tree : Node) : option Node :=
  card ← child 2 tree; child 4 card.

Definition divider_background (tree : Node) : option StyleValue :=
  d ← divider tree; style_get "background" (node_style d).

(** ** Errors, fonts and the outside world *)

(** What a [throw] or a rejected promise carries. *)
Inductive Err :=
| HttpError (status : Z)            (* new Error(`HTTP ${status}`) *)
| TransportError (msg : string)     (* 'error' event of a request or stream *)
| FsError (code path : string)      (* thrown by a file-system call *)
| RenderError (msg : string).       (* thrown by satori or resvg *)

(** [`${error}`] *)
Definition error_text (e : Err) : string :=
  match e with
  | HttpError st => "Error: HTTP " +:+ pretty st
  | TransportError msg => msg
  | FsError code path => "Error: " +:+ code +:+ ": " +:+ path
  | RenderError msg => msg
  end.

Inductive result (A : Type) :=
| Ok (a : A)
| Throw (e : Err).
Arguments Ok {A} a.
Arguments Throw {A} e.

Record Font := mkFont {
  font_name : string;
  font_data : bytes;
  font_weight : Z;
  font_style : string;
}.

(** One HTTP response as the callback of [https.get] sees it: the status,
    the [location] header if the server sent one, and the body stream, which
    delivers its chunks and then either ends or reports an error. *)
Record Response := mkResponse {
  statusCode : Z;
  location : option string;
  chunks : list bytes;
  stream_error : option string;
}.

Inductive Reply :=
| ConnectionError (msg : string)    (* the request emits 'error' *)
| Responds (r : Response).

(** Everything the script takes from its platform and does not change. *)
Record Env := mkEnv {
  PROJECT_ROOT : string;                        (* join(__dirname, '..') *)
  join : list string → string;                  (* path.join *)
  dirname : string → string;                    (* path.dirname *)
  https_get : string → Reply;                   (* the server, per URL *)
  write_denied : string → bool;                 (* paths the process may not write *)
  satori : Node → Z → Z → list Font → result string;
  resvg_png : string → Z → result bytes;        (* new Resvg(svg, fitTo).render().asPng() *)
}.

(** What a run does that an observer can see, oldest first. *)
Inductive Event :=
| EvLog (text : string)             (* console.log, process.stdout.write *)
| EvErr (text : string)             (* console.error, console.warn *)
| EvRead (path : string)            (* readFileSync *)
| EvWrite (path : string) (data : bytes)   (* a completed writeFileSync *)
| EvMkdir (path : string)           (* a completed mkdirSync *)
| EvDownload (url : string)         (* a call of downloadFile *)
| EvGet (url : string)              (* one https.get *)
| EvSatori (tree : Node).           (* a call of satori *)

Record World := mkWorld {
  files : gmap string bytes;        (* regular files and their contents *)
  dirs : gset string;               (* directories *)
  trace : list Event;
}.

Definition emit (e : Event) (w : World) : World :=
  mkWorld (files w) (dirs w) (trace w ++ [e]).

(** ** Computations: state and exceptions *)

Definition IO (A : Type) : Type := World → result A * World.

Definition ret {A} (a : A) : IO A := λ w, (Ok a, w).

Definition bind {A B} (m : IO A) (k : A → IO B) : IO B :=
  λ w, match m w with
       | (Ok a, w') => k a w'
       | (Throw e, w') => (Throw e, w')
       end.

(** [try { body } catch (error) { handler }] *)
Definition try_catch {A} (body : IO A) (handler : Err → IO A) : IO A :=
  λ w, match body w with
       | (Ok a, w') => (Ok a, w')
       | (Throw e, w') => handler e w'
       end.

Definition lift {A} (r : result A) : IO A := λ w, (r, w).

Declare Scope io_scope.
Delimit Scope io_scope with io.
Notation "x <- m ;; k" := (bind m (λ x, k))
  (at level 100, m at next level, right associativity) : io_scope.
Notation "m ;; k" := (bind m (λ _, k))
  (at level 100, right associativity) : io_scope.
Local Open Scope io_scope.

Definition console_log (text : string) : IO unit :=
  λ w, (Ok tt, emit (EvLog text) w).

Definition console_error (text : string) : IO unit :=
  λ w, (Ok tt, emit (EvErr text) w).

Section Script.

Context (E : Env).

(** *** File-system calls *)

Definition existsSync (path : string) (w : World) : bool :=
  bool_decide (is_Some (files w !! path)) || bool_decide (path ∈ dirs w).

Definition exists_ (path : string) : IO bool :=
  λ w, (Ok (existsSync path w), w).

Definition readFileSync (path : string) : IO bytes :=
  λ w, let w' := emit (EvRead path) w in
       match files w !! path with
       | Some data => (Ok data, w')
       | None =>
           if bool_decide (path ∈ dirs w)
           then (Throw (FsError "EISDIR" path), w')
           else (Throw (FsError "ENOENT" path), w')
       end.

(** [writeFileSync(path, data)].  The call throws where the file cannot be
    opened: the process may not write the path, the path is a directory, or
    the directory it lies in does not exist; the file system is then as it
    was.  A failure in the middle of writing (no space left on the device)
    is not among the behaviours of an [Env]. *)
Definition writeFileSync (path : string) (data : bytes) : IO unit :=
  λ w, if write_denied E path then (Throw (FsError "EACCES" path), w)
       else if bool_decide (path ∈ dirs w)
       then (Throw (FsError "EISDIR" path), w)
       else if bool_decide (dirname E path ∈ dirs w)
       then (Ok tt,
             mkWorld (<[path := data]> (files w)) (dirs w)
               (trace w ++ [EvWrite path data]))
       else (Throw (FsError "ENOENT" path), w).

(** [mkdirSync(path, { recursive: true })] *)
Definition mkdirSync (path : string) : IO unit :=
  λ w, if write_denied E path then (Throw (FsError "EACCES" path), w)
       else (Ok tt,
             mkWorld (files w) ({[path]} ∪ dirs w)
               (trace w ++ [EvMkdir path])).

(** *** Paths *)

Definition OUTPUT_DIR : string := join E [PROJECT_ROOT E; "public"; "og"].
Definition FONTS_DIR : string := join E [PROJECT_ROOT E; "assets"; "fonts"].
Definition DEFAULT_BG_PATH : string :=
  join E [PROJECT_ROOT E; "assets"; "bg"; "og-background.jpg"].
Definition DEFAULT_BG_URL : string :=
  "https://assets.jozapf.de/jpg/og_image_v2_1200x630_jozapf_de.jpg".

(** *** downloadFile *)

(** A header value used as a condition: [undefined] and the empty string are
    both falsy. *)
Definition truthy (o : option string) : option string :=
  match o with
  | Some s => if bool_decide (s = "") then None else Some s
  | None => None
  end.

(** The body of a 200 response: the chunks are concatenated when the stream
    emits 'end'; a stream 'error' rejects instead. *)
Definition read_body (response : Response) : result bytes :=
  match stream_error response with
  | None => Ok (concat (chunks response))
  | Some msg => Throw (TransportError msg)
  end.

(** The inner [request] closure.  It calls itself on every followed redirect
    and the source puts no bound on that, so the embedding takes the number
    of requests it may issue as [fuel]; [None] means that the promise has not
    settled within that many requests.

    The replies of an [Env] are those of requests that [https.get] issues:
    every URL the closure is called with is taken to be an absolute [https]
    URL.  A [Location] that is relative, or of another protocol, makes
    [https.get] throw inside the response callback instead; that end of the
    process is not among the behaviours embedded here. *)
Fixpoint request (fuel : nat) (url : string) (w : World)
  : option (result bytes * World) :=
  match fuel with
  | O => None
  | S fuel' =>
      let w' := emit (EvGet url) w in
      match https_get E url with
      | ConnectionError msg => Some (Throw (TransportError msg), w')
      | Responds response =>
          let redirectUrl :=
            if bool_decide (statusCode response = 301)
               || bool_decide (statusCode response = 302)
            then truthy (location response) else None in
          match redirectUrl with
          | Some target => request fuel' target w'
          | None =>
              if bool_decide (statusCode response ≠ 200)
              then Some (Throw (HttpError (statusCode response)), w')
              else Some (read_body response, w')
          end
      end
  end.

Definition downloadFile (fuel : nat) (url : string) (w : World)
  : option (result bytes * World) :=
  request fuel url (emit (EvDownload url) w).

(** *** loadImageAsBase64 *)

(** The value of a property read.  Besides the strings stored in the table,
    a property read on an object literal can return what every object
    inherits from [Object.prototype]: native functions and the prototype
    object itself. *)
Inductive JsValue :=
| JsStr (s : string)
| JsNative (name : string)
| JsObject.

Definition Object_prototype : gmap string JsValue :=
  list_to_map
    [ ("constructor", JsNative "Object");
      ("__proto__", JsObject);
      ("__defineGetter__", JsNative "__defineGetter__");
      ("__defineSetter__", JsNative "__defineSetter__");
      ("__lookupGetter__", JsNative "__lookupGetter__");
      ("__lookupSetter__", JsNative "__lookupSetter__");
      ("hasOwnProperty", JsNative "hasOwnProperty");
      ("isPrototypeOf", JsNative "isPrototypeOf");
      ("propertyIsEnumerable", JsNative "propertyIsEnumerable");
      ("toLocaleString", JsNative "toLocaleString");
      ("toString", JsNative "toString");
      ("valueOf", JsNative "valueOf") ].

(** [obj[key]] on an object literal with the own properties [own] *)
Definition get_property (own : gmap string string) (key : string)
  : option JsValue :=
  match own !! key with
  | Some v => Some (JsStr v)
  | None => Object_prototype !! key
  end.

(** [value || fallback] *)
Definition or_default (value : option JsValue) (fallback : string) : JsValue :=
  match value with
  | Some (JsStr s) => if bool_decide (s = "") then JsStr fallback else JsStr s
  | Some v => v
  | None => JsStr fallback
  end.

(** [`${value}`] *)
Definition to_text (v : JsValue) : string :=
  match v with
  | JsStr s => s
  | JsNative name => "function " +:+ name +:+ "() { [native code] }"
  | JsObject => "[object Object]"
  end.

Definition mimeTypes : gmap string string :=
  list_to_map
    [ ("jpg", "image/jpeg"); ("jpeg", "image/jpeg");
      ("png", "image/png"); ("webp", "image/webp") ].

(** [imagePath.toLowerCase().split('.').pop()] *)
Definition ext_of (imagePath : string) : option string :=
  pop (split "." (toLowerCase imagePath)).

(** [mimeTypes[ext || 'jpg'] || 'image/jpeg'] *)
Definition mime_of (imagePath : string) : JsValue :=
  let key := default "jpg" (truthy (ext_of imagePath)) in
  or_default (get_property mimeTypes key) "image/jpeg".

Definition loadImageAsBase64 (imagePath : string) : IO string :=
  imageBuffer <- readFileSync imagePath;;
  ret ("data:" +:+ to_text (mime_of imagePath) +:+ ";base64,"
         +:+ base64 imageBuffer).

(** *** generateOGImage *)

Definition og_filename (page : PageConfig) : string :=
  "og-" +:+ slug page +:+ ".png".

Definition call_satori (tree : Node) (fonts : list Font) : IO string :=
  λ w, (satori E tree OG_WIDTH OG_HEIGHT fonts, emit (EvSatori tree) w).

Definition generateOGImage (page : PageConfig) (bgImageDataUrl : string)
    (fonts : list Font) : IO string :=
  let filename := og_filename page in
  svg <- call_satori (createOGTemplate page bgImageDataUrl) fonts;;
  pngBuffer <- lift (resvg_png E svg OG_WIDTH);;
  let outputPath := join E [OUTPUT_DIR; filename] in
  writeFileSync outputPath pngBuffer;;
  ret filename.

(** *** main *)

Definition nl : string := String "010"%char "".
Definition dq : string := String "034"%char "".
Definition rule : string := repeat_str "═" 50.

Definition PLACEHOLDER_BG : string :=
  "data:image/png;base64,iVBORw0KGgoAAAANSUhEUgAAAAEAAAABCAYAAAAfFcSJAAAADUlEQVR42mNk+M9QDwADhgGAWjR9awAAAABJRU5ErkJggg==".

Abbreviation Cache := (gmap string string).

(** [join(PROJECT_ROOT, page.bgImage)] when the page has a (non-empty)
    [bgImage] *)
Definition override_path (page : PageConfig) : option string :=
  img ← truthy (bgImage page); Some (join E [PROJECT_ROOT E; img]).

Definition ensure_output_dir : IO unit :=
  present <- exists_ OUTPUT_DIR;;
  (if present : bool then ret tt else mkdirSync OUTPUT_DIR);;
  console_log ("✓ Output directory: " +:+ OUTPUT_DIR).

(** The [bgPaths] set: the default path and every page's resolved override.
    The script collects it and does not read it again. *)
Fixpoint collect_bgPaths (pages : list PageConfig) (bgPaths : gset string)
  : gset string :=
  match pages with
  | [] => bgPaths
  | page :: rest =>
      match override_path page with
      | Some fullPath => collect_bgPaths rest (bgPaths ∪ {[fullPath]})
      | None => collect_bgPaths rest bgPaths
      end
  end.

Definition bgPaths (pages : list PageConfig) : gset string :=
  collect_bgPaths pages {[DEFAULT_BG_PATH]}.

(** The part of the [try] block after the cache entry is set. *)
Definition save_default_bg (buffer : bytes) : IO unit :=
  let bgDir := dirname E DEFAULT_BG_PATH in
  present <- exists_ bgDir;;
  (if present : bool then ret tt else mkdirSync bgDir);;
  writeFileSync DEFAULT_BG_PATH buffer;;
  console_log "   ✓ Saved locally for future builds".

(** The [catch] block.  [bgCache] is the map as the [try] block left it. *)
Definition use_placeholder (bgCache : Cache) : IO Cache :=
  console_error "   ❌ Failed to download background image";;
  console_log "   Using gradient-only fallback";;
  ret (<[DEFAULT_BG_PATH := PLACEHOLDER_BG]> bgCache).

Definition network_data_url (buffer : bytes) : string :=
  "data:image/jpeg;base64," +:+ base64 buffer.

(** Load or download the default background.  The cache is a mutable [Map]:
    what the [try] block stored is still there when the [catch] block runs. *)
Definition load_default_bg (fuel : nat) (bgCache : Cache) (w : World)
  : option (result Cache * World) :=
  if existsSync DEFAULT_BG_PATH w then
    Some ((console_log "✓ Loading default background image...";;
           dataUrl <- loadImageAsBase64 DEFAULT_BG_PATH;;
           ret (<[DEFAULT_BG_PATH := dataUrl]> bgCache)) w)
  else
    let w1 := emit (EvLog "⬇️  Downloading default background image...") w in
    match downloadFile fuel DEFAULT_BG_URL w1 with
    | None => None
    | Some (Throw _, w2) => Some (use_placeholder bgCache w2)
    | Some (Ok buffer, w2) =>
        let bgCache1 := <[DEFAULT_BG_PATH := network_data_url buffer]> bgCache in
        match save_default_bg buffer w2 with
        | (Ok _, w3) => Some (Ok bgCache1, w3)
        | (Throw _, w3) => Some (use_placeholder bgCache1 w3)
        end
    end.

Definition load_page_bg (page : PageConfig) (bgCache : Cache) : IO Cache :=
  match override_path page with
  | Some fullPath =>
      if bool_decide (is_Some (bgCache !! fullPath)) then ret bgCache
      else
        present <- exists_ fullPath;;
        if present : bool then
          console_log ("✓ Loading background for " +:+ dq +:+ slug page
                         +:+ dq +:+ "...");;
          dataUrl <- loadImageAsBase64 fullPath;;
          ret (<[fullPath := dataUrl]> bgCache)
        else
          console_error ("⚠️  Background not found for " +:+ dq +:+ slug page
                           +:+ dq +:+ ": " +:+ default "" (bgImage page));;
          console_log "   Falling back to default background";;
          ret bgCache
  | None => ret bgCache
  end.

Fixpoint load_page_bgs (pages : list PageConfig) (bgCache : Cache)
  : IO Cache :=
  match pages with
  | [] => ret bgCache
  | page :: rest =>
      bgCache' <- load_page_bg page bgCache;;
      load_page_bgs rest bgCache'
  end.

(** The whole background phase, starting from the empty cache. *)
Definition load_backgrounds (fuel : nat) (pages : list PageConfig) (w : World)
  : option (result Cache * World) :=
  match load_default_bg fuel ∅ w with
  | None => None
  | Some (Throw e, w') => Some (Throw e, w')
  | Some (Ok bgCache, w') => Some (load_page_bgs pages bgCache w')
  end.

Definition fontFiles : list string :=
  ["Montserrat-Bold.ttf"; "Montserrat-Medium.ttf"; "Montserrat-Regular.ttf"].

Definition weight_of (fontFile : string) : Z :=
  if includes fontFile "Bold" then 700
  else if includes fontFile "Medium" then 500 else 400.

(** The font loop either fills the font list or calls [process.exit]. *)
Inductive FontLoad :=
| FontsLoaded (fonts : list Font)
| ProcessExit (code : Z).

Definition font_path (fontFile : string) : string :=
  join E [FONTS_DIR; fontFile].

Fixpoint load_fonts (names : list string) (fonts : list Font) : IO FontLoad :=
  match names with
  | [] => ret (FontsLoaded fonts)
  | fontFile :: rest =>
      let fontPath := font_path fontFile in
      present <- exists_ fontPath;;
      if present : bool then
        data <- readFileSync fontPath;;
        load_fonts rest
          (fonts ++ [mkFont "Montserrat" data (weight_of fontFile) "normal"])
      else
        console_error ("❌ Font not found: " +:+ fontPath);;
        console_log ("   Run " +:+ dq +:+ "npm run setup" +:+ dq
                       +:+ " first to download fonts.");;
        ret (ProcessExit 1)
  end.

(** Per-page override if it is cached, the default otherwise. *)
Definition resolve_bg (bgCache : Cache) (page : PageConfig) : string :=
  let bgDataUrl := default "" (truthy (bgCache !! DEFAULT_BG_PATH)) in
  match override_path page with
  | Some fullPath => default bgDataUrl (truthy (bgCache !! fullPath))
  | None => bgDataUrl
  end.

(** One iteration of the generation loop. *)
Definition generate_page (bgCache : Cache) (fonts : list Font)
    (page : PageConfig) (generated : list string) : IO (list string) :=
  let bgDataUrl := resolve_bg bgCache page in
  console_log ("   → " +:+ slug page +:+ "...");;
  try_catch
    (filename <- generateOGImage page bgDataUrl fonts;;
     console_log (" ✓ " +:+ filename);;
     ret (generated ++ [filename]))
    (λ error,
       console_log " ❌ Failed";;
       console_error ("     " +:+ error_text error);;
       ret generated).

Fixpoint generate_pages (bgCache : Cache) (fonts : list Font)
    (pages : list PageConfig) (generated : list string) : IO (list string) :=
  match pages with
  | [] => ret generated
  | page :: rest =>
      generated' <- generate_page bgCache fonts page generated;;
      generate_pages bgCache fonts rest generated'
  end.

Definition summary_line (succeeded total : nat) : string :=
  "✅ Generated " +:+ pretty succeeded +:+ "/" +:+ pretty total
    +:+ " OG images:".

Fixpoint log_each (generated : list string) : IO unit :=
  match generated with
  | [] => ret tt
  | f :: rest => console_log ("   • public/og/" +:+ f);; log_each rest
  end.

(** How the process ends. *)
Inductive Outcome :=
| Finished (generated : list string)  (* [main] resolved *)
| Exited (code : Z)                   (* [process.exit(code)] *)
| Rejected (e : Err).                 (* [main] rejected; [.catch(console.error)] *)

Definition exit_code (o : Outcome) : Z :=
  match o with
  | Exited code => code
  | _ => 0
  end.

(** The generation loop and the summary. *)
Definition generate_and_summarize (pages : list PageConfig) (bgCache : Cache)
    (fonts : list Font) : IO Outcome :=
  console_log (nl +:+ "📄 Generating images:");;
  generated <- generate_pages bgCache fonts pages [];;
  console_log (nl +:+ rule);;
  console_log (summary_line (length generated) (length pages));;
  log_each generated;;
  console_log "";;
  ret (Finished generated).

(** Everything after the background phase: fonts, then the pages. *)
Definition render_phase (pages : list PageConfig) (bgCache : Cache)
  : IO Outcome :=
  loaded <- load_fonts fontFiles [];;
  match loaded with
  | ProcessExit code => ret (Exited code)
  | FontsLoaded fonts =>
      console_log "✓ Fonts loaded";;
      generate_and_summarize pages bgCache fonts
  end.

Definition prologue (pages : list PageConfig) : IO unit :=
  console_log (nl +:+ "🖼️  OG Image Generator");;
  console_log rule;;
  console_log ("   Generating " +:+ pretty (length pages) +:+ " image(s)..."
                 +:+ nl);;
  ensure_output_dir.

(** [.catch(console.error)] *)
Definition settle (r : result Outcome * World) : Outcome * World :=
  match r with
  | (Ok o, w) => (o, w)
  | (Throw e, w) => (Rejected e, emit (EvErr (error_text e)) w)
  end.

(** Everything before the font loop: the banner, the output directory and
    the backgrounds. *)
Definition setup (fuel : nat) (pages : list PageConfig) (w : World)
  : option (result Cache * World) :=
  match prologue pages w with
  | (Throw e, w1) => Some (Throw e, w1)
  | (Ok _, w1) => load_backgrounds fuel pages w1
  end.

Definition main (fuel : nat) (pages : list PageConfig) (w : World)
  : option (Outcome * World) :=
  match setup fuel pages w with
  | None => None
  | Some (Throw e, w2) => Some (settle (Throw e, w2))
  | Some (Ok bgCache, w2) => Some (settle (render_phase pages bgCache w2))
  end.

End Script.

Arguments existsSync path w : simpl never.

(** ** Test platforms

    Concrete environments and worlds on which the definitions above can be
    run: a POSIX-style [join], a server given by a table of replies, and
    rendering libraries that accept every tree except one with a marked
    accent colour. *)
Module Fixture.

Definition join (parts : list string) : string := String.concat "/" parts.

Definition dirname (path : string) : string :=
  let segments := split "/" path in
  String.concat "/" (take (length segments - 1) segments).

Fixpoint server (table : list (string * Reply)) (url : string) : Reply :=
  match table with
  | [] => ConnectionError "Error: getaddrinfo ENOTFOUND"
  | (u, reply) :: rest => if decide (u = url) then reply else server rest url
  end.

Definition satori (tree : Node) (width height : Z) (fonts : list Font)
  : result string :=
  match divider_background tree with
  | Some (Str gradient) =>
      if includes gradient "not-a-color"
      then Throw (RenderError "Error: invalid color")
      else Ok "<svg/>"
  | _ => Throw (RenderError "Error: no divider")
  end.

Definition resvg_png (svg : string) (width : Z) : result bytes :=
  Ok [Byte.x89; "P"; "N"; "G"]%byte.

Definition env (table : list (string * Reply)) (readonly : list string)
  : Env :=
  mkEnv "/site" join dirname (server table)
    (λ path, bool_decide (path ∈ readonly)) satori resvg_png.

Definition world (fs : list (string * bytes)) (directories : list string)
  : World :=
  mkWorld (list_to_map fs) (list_to_set directories) [].

Definition ok200 (body : list bytes) : Reply :=
  Responds (mkResponse 200 None body None).

Definition redirect (status : Z) (target : string) : Reply :=
  Responds (mkResponse status (Some target) [] None).

Definition page (slug : string) (bg : option string)
    (colors : option AccentColors) : PageConfig :=
  mkPage slug "Title" "Subtitle" "Description" "badge" bg colors.

Definition fonts_present : list (string * bytes) :=
  [ ("/site/assets/fonts/Montserrat-Bold.ttf", ["B"]%byte);
    ("/site/assets/fonts/Montserrat-Medium.ttf", ["M"]%byte);
    ("/site/assets/fonts/Montserrat-Regular.ttf", ["R"]%byte) ].

End Fixture.

(** ** Reading a trace *)

Definition downloads (evs : list Event) : list string :=
  omap (λ e, match e with EvDownload url => Some url | _ => None end) evs.

Definition reads (evs : list Event) : list string :=
  omap (λ e, match e with EvRead path => Some path | _ => None end) evs.

Definition writes (evs : list Event) : list (string * bytes) :=
  omap (λ e, match e with EvWrite path data => Some (path, data) | _ => None end)
    evs.

Definition satori_calls (evs : list Event) : list Node :=
  omap (λ e, match e with EvSatori tree => Some tree | _ => None end) evs.

Definition logs (evs : list Event) : list string :=
  omap (λ e, match e with EvLog text => Some text | _ => None end) evs.

Definition errors (evs : list Event) : list string :=
  omap (λ e, match e with EvErr text => Some text | _ => None end) evs.

(** [w] extended by the events [evs], the file system untouched. *)
Definition after (w : World) (evs : list Event) : World :=
  mkWorld (files w) (dirs w) (trace w ++ evs).

(** ** Vocabulary of the statements *)

Section Vocabulary.

Context (E : Env).

(** [url] answers with a redirect that the download follows to [target]. *)
Definition followed_redirect (url target : string) : Prop :=
  ∃ response,
    https_get E url = Responds response ∧
    (statusCode response = 301 ∨ statusCode response = 302) ∧
    location response = Some target ∧ target ≠ "".

(** [redirect_chain url visited last]: starting at [url], the URLs [visited]
    answer one after the other with a followed redirect, and the last of
    these redirects leads to [last]. *)
Inductive redirect_chain : string → list string → string → Prop :=
| chain_done url : redirect_chain url [] url
| chain_hop url target visited last :
    followed_redirect url target →
    redirect_chain target visited last →
    redirect_chain url (url :: visited) last.

(** A response that is not a redirect the download would follow. *)
Definition terminal (response : Response) : Prop :=
  (statusCode response ≠ 301 ∧ statusCode response ≠ 302)
  ∨ truthy (location response) = None.

(** The redirect clause read for every [location] header, empty or not. *)
Definition follows_every_location : Prop :=
  ∀ fuel url w response target,
    https_get E url = Responds response →
    statusCode response = 301 ∨ statusCode response = 302 →
    location response = Some target →
    request E (S fuel) url w = request E fuel target (emit (EvGet url) w).

(** The counting clause read with the fetch of an absent default counted
    among the operations and only the paths that exist counted on the other
    side. *)
Definition operations_match_existing_paths : Prop :=
  ∀ fuel pages w bgCache w',
    load_backgrounds E fuel pages w = Some (Ok bgCache, w') →
    ∃ evs,
      trace w' = trace w ++ evs ∧
      (length (reads evs) + length (downloads evs))%nat
      = size (filter (λ path, existsSync path w = true) (bgPaths E pages)).

(** The font clause read without any condition on the steps before the font
    loop. *)
Definition missing_font_always_exits : Prop :=
  ∀ pages w fontFile,
    fontFile ∈ fontFiles →
    existsSync (font_path E fontFile) w = false →
    ∃ fuel outcome w',
      main E fuel pages w = Some (outcome, w') ∧ exit_code outcome ≠ 0.

End Vocabulary.

Section PageVocabulary.

Context (E : Env) (bgCache : gmap string string) (fonts : list Font).

(** The directories there are while the pages are generated: the loop
    creates none and removes none. *)
Context (ds : gset string).

(** The tree the generation loop builds for a page. *)
Definition page_tree (page : PageConfig) : Node :=
  createOGTemplate page (resolve_bg E bgCache page).

Definition output_path (page : PageConfig) : string :=
  join E [OUTPUT_DIR E; og_filename page].

(** What the two libraries answer for a page: the PNG, or what they throw. *)
Definition rendered (page : PageConfig) : result bytes :=
  match satori E (page_tree page) OG_WIDTH OG_HEIGHT fonts with
  | Ok svg => resvg_png E svg OG_WIDTH
  | Throw e => Throw e
  end.

(** The fate of a page: the PNG written to its output path, or the error
    raised by the libraries or by the write.  The write goes through when
    the process may write the path, the path is not a directory, and the
    directory it lies in exists. *)
Definition page_outcome (page : PageConfig) : result bytes :=
  match rendered page with
  | Ok png =>
      if write_denied E (output_path page)
      then Throw (FsError "EACCES" (output_path page))
      else if bool_decide (output_path page ∈ ds)
      then Throw (FsError "EISDIR" (output_path page))
      else if bool_decide (dirname E (output_path page) ∈ ds)
      then Ok png
      else Throw (FsError "ENOENT" (output_path page))
  | Throw e => Throw e
  end.

Definition succeeds (page : PageConfig) : bool :=
  match page_outcome page with
  | Ok _ => true
  | Throw _ => false
  end.

Definition written_file (page : PageConfig) : option (string * bytes) :=
  match page_outcome page with
  | Ok png => Some (output_path page, png)
  | Throw _ => None
  end.

Definition failure_report (page : PageConfig) : option string :=
  match page_outcome page with
  | Ok _ => None
  | Throw e => Some ("     " +:+ error_text e)
  end.

Definition page_events (page : PageConfig) : list Event :=
  EvLog ("   → " +:+ slug page +:+ "...") :: EvSatori (page_tree page) ::
  match page_outcome page with
  | Ok png =>
      [EvWrite (output_path page) png; EvLog (" ✓ " +:+ og_filename page)]
  | Throw e =>
      [EvLog " ❌ Failed"; EvErr ("     " +:+ error_text e)]
  end.

(** The file system after the writes of the successful pages, in order. *)
Definition files_after (pages : list PageConfig) (fs : gmap string bytes)
  : gmap string bytes :=
  foldl (λ fs page,
           match written_file page with
           | Some (path, png) => <[path := png]> fs
           | None => fs
           end) fs pages.

End PageVocabulary.

(** ** Vocabulary for the background cache and the output directory *)

Section CacheVocabulary.

Context (E : Env).

(** What [loadImageAsBase64] returns for a file with the contents [data]. *)
Definition local_data_url (path : string) (data : bytes) : string :=
  "data:" +:+ to_text (mime_of path) +:+ ";base64," +:+ base64 data.

Definition is_data_url (s : string) : Prop := String.prefix "data:" s = true.

(** The same page configuration with the [bgImage] field left out. *)
Definition without_bgImage (page : PageConfig) : PageConfig :=
  mkPage (slug page) (title page) (subtitle page) (description page)
    (badge page) None (accentColors page).

(** The data of the last write to [path] in a list of writes, oldest first. *)
Definition last_write (path : string) (ws : list (string * bytes))
  : option bytes :=
  snd <$> last (filter (λ write, write.1 = path) ws).

End CacheVocabulary.

(** Every [fontWeight] a tree asks for, in document order. *)
Fixpoint font_weights (n : Node) : list Z :=
  match n with
  | Element _ _ st ch =>
      match style_get "fontWeight" st with
      | Some (Num weight) => [weight]
      | _ => []
      end ++
      match ch with
      | NodeChildren l =>
          (fix go (l : list Node) : list Z :=
             match l with
             | [] => []
             | n' :: l' => font_weights n' ++ go l'
             end) l
      | _ => []
      end
  end.

(** ** [scripts/download-fonts.ts]

    The setup script that fetches the three font files the generator needs.
    It runs on the same platform as the generator and is embedded over the
    same [Env] and [World]. *)
Module DownloadFonts.

Record FontSource := mkFontSource {
  name : string;
  url : string;
}.

Definition FONTS : list FontSource :=
  [ mkFontSource "Montserrat-Regular.ttf"
      "https://github.com/JulietaUla/Montserrat/raw/master/fonts/ttf/Montserrat-Regular.ttf";
    mkFontSource "Montserrat-Medium.ttf"
      "https://github.com/JulietaUla/Montserrat/raw/master/fonts/ttf/Montserrat-Medium.ttf";
    mkFontSource "Montserrat-Bold.ttf"
      "https://github.com/JulietaUla/Montserrat/raw/master/fonts/ttf/Montserrat-Bold.ttf" ].

(** How a call of [downloadFile(url, dest)] ends.  The file is written
    inside the 'end' handler of the response stream, outside the promise
    executor: an exception of [writeFileSync] there is not turned into a
    rejection, it is an uncaught exception of the process. *)
Inductive Download :=
| Saved                         (* the file is written, [resolve()] *)
| Failed (error : string)       (* [reject(error)], as [`${error}`] prints it *)
| Crashed (e : Err).            (* uncaught exception *)

(** How the script ends. *)
Inductive Run :=
| Ready                         (* [main] resolved *)
| Exit (code : Z)               (* [process.exit(code)] *)
| Aborted (e : Err).            (* uncaught exception, or [main] rejected
                                   with nothing to catch it *)

Section Script.

Context (E : Env).

Definition FONTS_DIR : string := join E [PROJECT_ROOT E; "assets"; "fonts"].

(** The inner [request] closure, with [fuel] as in the generator and over
    the same replies: here too every URL it is called with is taken to be one
    that [https.get] accepts. *)
Fixpoint request (fuel : nat) (url file : string) (w : World)
  : option (Download * World) :=
  match fuel with
  | O => None
  | S fuel' =>
      let w' := emit (EvGet url) w in
      match https_get E url with
      | ConnectionError msg => Some (Failed msg, w')
      | Responds response =>
          let redirectUrl :=
            if bool_decide (statusCode response = 301)
               || bool_decide (statusCode response = 302)
            then truthy (location response) else None in
          match redirectUrl with
          | Some target => request fuel' target file w'
          | None =>
              if bool_decide (statusCode response ≠ 200)
              then Some (Failed ("Error: Failed to download: "
                                   +:+ pretty (statusCode response)), w')
              else
                match stream_error response with
                | Some msg => Some (Failed msg, w')
                | None =>
                    match writeFileSync E file (concat (chunks response)) w' with
                    | (Ok _, w'') => Some (Saved, w'')
                    | (Throw e, w'') => Some (Crashed e, w'')
                    end
                end
          end
      end
  end.

Definition downloadFile (fuel : nat) (url dest : string) (w : World)
  : option (Download * World) :=
  request fuel url dest (emit (EvDownload url) w).

Definition rule : string := repeat_str "═" 40.

Definition ensure_fonts_dir : IO unit :=
  present <- exists_ FONTS_DIR;;
  if present : bool then ret tt
  else
    mkdirSync E FONTS_DIR;;
    console_log ("✓ Created: " +:+ FONTS_DIR).

(** The loop over [FONTS]; every download may issue [fuel] requests. *)
Fixpoint download_fonts (fuel : nat) (fonts : list FontSource) (w : World)
  : option (Run * World) :=
  match fonts with
  | [] => Some (Ready, w)
  | font :: rest =>
      let destPath := join E [FONTS_DIR; name font] in
      if existsSync destPath w then
        download_fonts fuel rest
          (emit (EvLog ("⏭️  Skipping " +:+ name font +:+ " (already exists)")) w)
      else
        let w1 := emit (EvLog ("⬇️  Downloading " +:+ name font +:+ "...")) w in
        match downloadFile fuel (url font) destPath w1 with
        | None => None
        | Some (Saved, w2) =>
            download_fonts fuel rest
              (emit (EvLog ("   ✓ Saved: " +:+ name font)) w2)
        | Some (Failed error, w2) =>
            Some (Exit 1, emit (EvErr ("   ❌ Failed: " +:+ error)) w2)
        | Some (Crashed e, w2) => Some (Aborted e, w2)
        end
  end.

Definition banner : IO unit :=
  console_log (nl +:+ "🔤 Font Downloader");;
  console_log rule;;
  ensure_fonts_dir.

Definition main (fuel : nat) (w : World) : option (Run * World) :=
  match banner w with
  | (Throw e, w1) => Some (Aborted e, w1)
  | (Ok _, w1) =>
      match download_fonts fuel FONTS w1 with
      | Some (Ready, w2) =>
          Some (Ready,
                emit (EvLog ("✅ Fonts ready!" +:+ nl))
                  (emit (EvLog (nl +:+ rule)) w2))
      | ended => ended
      end
  end.

End Script.

End DownloadFonts.

(** ** [app/page.tsx]: the gallery of generated images *)
Module Home.

(** [s.endsWith(suffix)] *)
Fixpoint endsWith (s suffix : string) : bool :=
  String.eqb s suffix ||
  match s with
  | EmptyString => false
  | String _ s' => endsWith s' suffix
  end.

(** [s.replace(pattern, replacement)] for a string pattern: the first
    occurrence only.  The page replaces by the empty string, so the [$]
    patterns of a replacement string do not come into it. *)
Fixpoint replace (pattern replacement s : string) : string :=
  if String.prefix pattern s
  then replacement +:+ String.substring (String.length pattern)
                         (String.length s - String.length pattern) s
  else match s with
       | EmptyString => EmptyString
       | String c s' => String c (replace pattern replacement s')
       end.

(** The filter of the directory listing: [f => f.endsWith('.png')] *)
Definition listed (f : string) : bool := endsWith f ".png".

(** [filename.replace('og-', '').replace('.png', '')] *)
Definition shown_slug (filename : string) : string :=
  replace ".png" "" (replace "og-" "" filename).

(** [`/og/${filename}`] and [`OG Image: ${slug}`] *)
Definition img_src (filename : string) : string := "/og/" +:+ filename.
Definition img_alt (filename : string) : string :=
  "OG Image: " +:+ shown_slug filename.

End Home.

(** A server for the font downloader: every font URL redirects once, as the
    host of the fonts does, and then delivers a three-byte body in two
    chunks. *)
Module FontFixture.

Definition cdn (font : DownloadFonts.FontSource) : string :=
  "https://raw.example/" +:+ DownloadFonts.name font.

Definition table : list (string * Reply) :=
  flat_map
    (λ font,
       [ (DownloadFonts.url font, Fixture.redirect 302 (cdn font));
         (cdn font, Fixture.ok200 [["T"; "T"]; ["F"]]%byte) ])
    DownloadFonts.FONTS.

Definition env (readonly : list string) : Env := Fixture.env table readonly.

End FontFixture.

(** * Properties *)

(** ** Library functions on known inputs *)

Example base64_Man : base64 ["M"; "a"; "n"]%byte = "TWFu".
Proof. reflexivity. Qed.

Example base64_Ma : base64 ["M"; "a"]%byte = "TWE=".
Proof. reflexivity. Qed.

Example base64_M : base64 ["M"]%byte = "TQ==".
Proof. reflexivity. Qed.

Example split_example : split "." "a.b.c" = ["a"; "b"; "c"].
Proof. reflexivity. Qed.

Example split_trailing : split "." "a." = ["a"; ""].
Proof. reflexivity. Qed.

Example split_nodot : split "." "png" = ["png"].
Proof. reflexivity. Qed.

(** ** The template builder *)

(** C8: the divider, the 120 by 3 bar under the subtitle, has its gradient
    built, left to right, from the page's accent colours when the page has
    them and from the default triple ('#e26b34', '#336851', '#1b3c65')
    otherwise, whatever the page and the background are. *)
Theorem divider_gradient_from_accent_colors (page : PageConfig) (bg : string) :
  let colors :=
    default (mkAccent "#e26b34" "#336851" "#1b3c65") (accentColors page) in
  ∃ bar,
    divider (createOGTemplate page bg) = Some bar ∧
    style_get "width" (node_style bar) = Some (Num 120) ∧
    style_get "height" (node_style bar) = Some (Num 3) ∧
    divider_background (createOGTemplate page bg)
    = Some (Str ("linear-gradient(90deg, " +:+ start colors +:+ " 0%, "
                   +:+ middle colors +:+ " 50%, " +:+ end_ colors +:+ " 100%)")).
Proof.
  unfold createOGTemplate, resolve_colors.
  destruct (accentColors page) as [c|]; eexists; by split_and!.
Qed.

(** C7: the template builder takes no world and gives equal trees on equal
    inputs.  It reads only the four texts and the accent colours of the page,
    so two calls that agree on those and on the background build the same
    tree, whatever their slugs and [bgImage] fields are. *)
Theorem createOGTemplate_deterministic (p1 p2 : PageConfig) (bg1 bg2 : string) :
  title p1 = title p2 →
  subtitle p1 = subtitle p2 →
  description p1 = description p2 →
  badge p1 = badge p2 →
  accentColors p1 = accentColors p2 →
  bg1 = bg2 →
  createOGTemplate p1 bg1 = createOGTemplate p2 bg2.
Proof.
  intros Ht Hs Hd Hb Hc ->.
  unfold createOGTemplate, resolve_colors.
  by rewrite Ht, Hs, Hd, Hb, Hc.
Qed.

Lemma createOGTemplate_deterministic_witness :
  createOGTemplate (Fixture.page "a" None None) "data:,"
  = createOGTemplate (Fixture.page "b" (Some "x.png") None) "data:,".
Proof. by apply createOGTemplate_deterministic. Defined.

(** ** The download *)

Section Download.

Context (E : Env).

Lemma request_follows fuel url target w :
  followed_redirect E url target →
  request E (S fuel) url w = request E fuel target (emit (EvGet url) w).
Proof.
  intros (response & Hget & Hstatus & Hloc & Hne). simpl.
  rewrite Hget, Hloc. simpl.
  rewrite (bool_decide_eq_false_2 _ Hne).
  by destruct Hstatus as [-> | ->].
Qed.

Lemma request_terminal fuel url response w :
  https_get E url = Responds response →
  terminal response →
  request E (S fuel) url w
  = Some (if bool_decide (statusCode response ≠ 200)
          then Throw (HttpError (statusCode response))
          else read_body response,
          emit (EvGet url) w).
Proof.
  intros Hget Hterm. simpl. rewrite Hget.
  destruct Hterm as [[H1 H2] | Hloc].
  - rewrite (bool_decide_eq_false_2 _ H1), (bool_decide_eq_false_2 _ H2).
    simpl. by case_bool_decide.
  - rewrite Hloc. destruct (_ || _); by case_bool_decide.
Qed.

Lemma request_connection_error fuel url msg w :
  https_get E url = ConnectionError msg →
  request E (S fuel) url w
  = Some (Throw (TransportError msg), emit (EvGet url) w).
Proof. intros Hget. simpl. by rewrite Hget. Qed.

Lemma emit_after w e : emit e w = after w [e].
Proof. done. Qed.

Lemma after_after w evs evs' : after (after w evs) evs' = after w (evs ++ evs').
Proof. unfold after. simpl. by rewrite <- (assoc_L (++)). Qed.

Lemma request_along_chain url visited last :
  redirect_chain E url visited last →
  ∀ fuel w,
    request E (length visited + fuel) url w
    = request E fuel last (after w (EvGet <$> visited)).
Proof.
  induction 1 as [url | url target visited last Hhop _ IH]; intros fuel w.
  - simpl. f_equal. destruct w. unfold after. simpl. by rewrite (right_id_L [] (++)).
  - cbn [length Nat.add]. rewrite (request_follows _ _ _ _ Hhop), IH.
    by rewrite emit_after, after_after.
Qed.

(** C3, as the code has it: the download issues one GET per URL along a chain
    of followed redirects, however long the chain is, and settles at the first
    response that is not a followed redirect: with an error carrying the
    status when the status is not 200, and with the concatenated chunks when
    it is 200 and the stream has ended.  A redirect is followed when its
    [location] header is present and not the empty string. *)
Theorem downloadFile_follows_redirects
    (url last : string) (visited : list string) (response : Response)
    (fuel : nat) (w : World) :
  redirect_chain E url visited last →
  https_get E last = Responds response →
  terminal response →
  (length visited < fuel)%nat →
  ∃ outcome,
    downloadFile E fuel url w
    = Some (outcome,
            after w (EvDownload url :: (EvGet <$> visited ++ [last]))) ∧
    (statusCode response ≠ 200 →
     outcome = Throw (HttpError (statusCode response))) ∧
    (statusCode response = 200 → stream_error response = None →
     outcome = Ok (concat (chunks response))).
Proof.
  intros Hchain Hget Hterm Hfuel.
  replace fuel with (length visited + S (fuel - S (length visited)))%nat by lia.
  unfold downloadFile.
  rewrite (request_along_chain _ _ _ Hchain),
    (request_terminal _ _ _ _ Hget Hterm).
  eexists. split; [|split].
  - f_equal. f_equal.
    rewrite !emit_after, !after_after. f_equal.
    by rewrite fmap_app.
  - intros Hne. by rewrite (bool_decide_eq_true_2 _ Hne).
  - intros Heq Hend. rewrite bool_decide_eq_false_2 by (by intros []).
    unfold read_body. by rewrite Hend.
Qed.

(** Fewer requests than the chain is long do not settle the promise. *)
Lemma request_needs_every_hop url visited last :
  redirect_chain E url visited last →
  ∀ fuel w, (fuel ≤ length visited)%nat → request E fuel url w = None.
Proof.
  induction 1 as [url | url target visited last Hhop _ IH]; intros fuel w Hfuel.
  - by replace fuel with 0%nat by (simpl in Hfuel; lia).
  - destruct fuel as [|fuel]; [done|].
    rewrite (request_follows _ _ _ _ Hhop). apply IH. simpl in Hfuel. lia.
Qed.

(** A URL that redirects to itself keeps the download from ever settling. *)
Lemma request_redirect_loop url :
  followed_redirect E url url →
  ∀ fuel w, request E fuel url w = None.
Proof.
  intros Hloop. induction fuel as [|fuel IH]; intros w; [done|].
  by rewrite (request_follows _ _ _ _ Hloop).
Qed.

(** Fuel only bounds the search: a download that settles within [fuel]
    requests settles in the same way with more. *)
Lemma request_fuel_mono fuel : ∀ url w r fuel',
  request E fuel url w = Some r →
  (fuel ≤ fuel')%nat →
  request E fuel' url w = Some r.
Proof.
  induction fuel as [|fuel IH]; intros url w r fuel' Hrun Hle; [done|].
  destruct fuel' as [|fuel']; [lia|].
  simpl in *. destruct (https_get E url) as [msg | response]; [done|].
  destruct (if _ || _ then truthy (location response) else None); [|done].
  apply (IH _ _ _ _ Hrun). lia.
Qed.

Lemma downloadFile_fuel_mono fuel fuel' url w r :
  downloadFile E fuel url w = Some r →
  (fuel ≤ fuel')%nat →
  downloadFile E fuel' url w = Some r.
Proof. unfold downloadFile. apply request_fuel_mono. Qed.

(** C10: a 301 or 302 response without a [location] header is not followed,
    wherever in a chain of redirects it comes.  The download issues no
    request after it and rejects with an error that carries the 3xx status:
    it neither hangs nor succeeds. *)
Theorem redirect_without_location_rejects
    (url last : string) (visited : list string) (response : Response)
    (fuel : nat) (w : World) :
  redirect_chain E url visited last →
  https_get E last = Responds response →
  statusCode response = 301 ∨ statusCode response = 302 →
  location response = None →
  (length visited < fuel)%nat →
  downloadFile E fuel url w
  = Some (Throw (HttpError (statusCode response)),
          after w (EvDownload url :: (EvGet <$> visited ++ [last]))).
Proof.
  intros Hchain Hget Hstatus Hloc Hfuel.
  replace fuel with (length visited + S (fuel - S (length visited)))%nat by lia.
  unfold downloadFile.
  rewrite (request_along_chain _ _ _ Hchain),
    (request_terminal _ _ _ _ Hget) by (right; by rewrite Hloc).
  rewrite bool_decide_eq_true_2 by (destruct Hstatus as [-> | ->]; done).
  by rewrite !emit_after, !after_after, fmap_app.
Qed.

End Download.

Lemma downloadFile_follows_redirects_witness :
  downloadFile
    (Fixture.env
       [ (DEFAULT_BG_URL, Fixture.redirect 301 "https://cdn.example/a");
         ("https://cdn.example/a", Fixture.redirect 302 "https://cdn.example/b");
         ("https://cdn.example/b", Fixture.ok200 [["M"; "a"]; ["n"]]%byte) ] [])
    3 DEFAULT_BG_URL (Fixture.world [] [])
  = Some (Ok ["M"; "a"; "n"]%byte,
          after (Fixture.world [] [])
            [ EvDownload DEFAULT_BG_URL; EvGet DEFAULT_BG_URL;
              EvGet "https://cdn.example/a"; EvGet "https://cdn.example/b" ]).
Proof.
  destruct (downloadFile_follows_redirects
              (Fixture.env
                 [ (DEFAULT_BG_URL, Fixture.redirect 301 "https://cdn.example/a");
                   ("https://cdn.example/a",
                    Fixture.redirect 302 "https://cdn.example/b");
                   ("https://cdn.example/b",
                    Fixture.ok200 [["M"; "a"]; ["n"]]%byte) ] [])
              DEFAULT_BG_URL "https://cdn.example/b"
              [DEFAULT_BG_URL; "https://cdn.example/a"]
              (mkResponse 200 None [["M"; "a"]; ["n"]]%byte None)
              3 (Fixture.world [] []))
    as (outcome & Hrun & _ & Hok).
  - apply chain_hop with (target := "https://cdn.example/a").
    { exists (mkResponse 301 (Some "https://cdn.example/a") [] None).
      split_and!; [reflexivity | by left | reflexivity | done]. }
    apply chain_hop with (target := "https://cdn.example/b").
    { exists (mkResponse 302 (Some "https://cdn.example/b") [] None).
      split_and!; [reflexivity | by right | reflexivity | done]. }
    apply chain_done.
  - reflexivity.
  - left. done.
  - simpl. lia.
  - rewrite Hrun, (Hok eq_refl eq_refl). reflexivity.
Defined.

(** C3 as stated fails: a 301 whose [location] header is the empty string is
    a response with a Location header, and the download does not re-issue
    the request against it. *)
Lemma empty_location_is_not_followed :
  ¬ follows_every_location
      (Fixture.env [("https://a.example/bg.jpg", Fixture.redirect 301 "")] []).
Proof.
  intros Hclaim.
  (* the first request settles with HTTP 301; a request against the empty
     location would have ended in a transport error *)
  assert (Hrun := Hclaim 1%nat "https://a.example/bg.jpg" (Fixture.world [] [])
                    (mkResponse 301 (Some "") [] None) ""
                    eq_refl (or_introl eq_refl) eq_refl).
  vm_compute in Hrun. discriminate Hrun.
Qed.

Lemma redirect_without_location_rejects_witness :
  downloadFile
    (Fixture.env
       [ ("https://a.example/bg.jpg", Fixture.redirect 301 "https://b.example/bg.jpg");
         ("https://b.example/bg.jpg", Responds (mkResponse 302 None [] None)) ] [])
    2 "https://a.example/bg.jpg" (Fixture.world [] [])
  = Some (Throw (HttpError 302),
          after (Fixture.world [] [])
            (EvDownload "https://a.example/bg.jpg"
               :: (EvGet <$> ["https://a.example/bg.jpg"]
                               ++ ["https://b.example/bg.jpg"]))).
Proof.
  apply (redirect_without_location_rejects _ _ "https://b.example/bg.jpg" _
           (mkResponse 302 None [] None)).
  - apply chain_hop with (target := "https://b.example/bg.jpg");
      [|apply chain_done].
    exists (mkResponse 301 (Some "https://b.example/bg.jpg") [] None).
    split_and!; [reflexivity | by left | reflexivity | done].
  - reflexivity.
  - by right.
  - reflexivity.
  - simpl. lia.
Defined.

(** ** The generation loop *)

Section Generation.

Context (E : Env) (bgCache : gmap string string) (fonts : list Font).

Lemma generate_page_run page generated w :
  generate_page E bgCache fonts page generated w
  = (Ok (generated ++ (if succeeds E bgCache fonts (dirs w) page
                       then [og_filename page] else [])),
     mkWorld (files_after E bgCache fonts (dirs w) [page] (files w)) (dirs w)
       (trace w ++ page_events E bgCache fonts (dirs w) page)).
Proof.
  unfold generate_page, generateOGImage, try_catch, bind, console_log,
    console_error, call_satori, lift, writeFileSync, ret, succeeds,
    page_events, files_after, written_file, page_outcome, rendered,
    page_tree, output_path, emit.
  simpl.
  destruct (satori E _ _ _ _) as [svg|e]; simpl.
  - destruct (resvg_png E svg _) as [png|e]; simpl.
    + destruct (write_denied E _); simpl; repeat case_bool_decide; simpl;
        rewrite <- ?(assoc_L (++)); simpl; try done;
        by rewrite (right_id_L [] (++)).
    + rewrite <- ?(assoc_L (++)); simpl. by rewrite (right_id_L [] (++)).
  - rewrite <- ?(assoc_L (++)); simpl. by rewrite (right_id_L [] (++)).
Qed.


Lemma generate_pages_run pages : ∀ generated w,
  generate_pages E bgCache fonts pages generated w
  = (Ok (generated ++ (og_filename <$> filter (λ p, succeeds E bgCache fonts (dirs w) p) pages)),
     mkWorld (files_after E bgCache fonts (dirs w) pages (files w)) (dirs w)
       (trace w ++ concat (page_events E bgCache fonts (dirs w) <$> pages))).
Proof.
  induction pages as [|page pages IH]; intros generated w.
  - simpl. unfold ret. rewrite !(right_id_L [] (++)). by destruct w.
  - cbn [generate_pages]. unfold bind at 1.
    rewrite generate_page_run, IH. cbn [files dirs trace].
    f_equal.
    + rewrite filter_cons. destruct (succeeds E bgCache fonts (dirs w) page) eqn:Hs.
      * rewrite decide_True by done. by rewrite fmap_cons, <- (assoc_L (++)).
      * rewrite decide_False by (simpl; intros []). by rewrite (right_id_L [] (++)).
    + f_equal. rewrite fmap_cons. cbn [concat]. by rewrite (assoc_L (++)).
Qed.

Lemma satori_calls_page_events ds pages :
  satori_calls (concat (page_events E bgCache fonts ds <$> pages))
  = page_tree E bgCache <$> pages.
Proof.
  induction pages as [|page pages IH]; [done|].
  rewrite !fmap_cons. cbn [concat]. unfold satori_calls in *.
  rewrite omap_app, IH. unfold page_events at 1.
  by destruct (page_outcome _ _ _ _).
Qed.

Lemma writes_page_events ds pages :
  writes (concat (page_events E bgCache fonts ds <$> pages))
  = omap (written_file E bgCache fonts ds) pages.
Proof.
  induction pages as [|page pages IH]; [done|].
  rewrite !fmap_cons. cbn [concat]. unfold writes in *.
  rewrite omap_app, IH. unfold page_events at 1. cbn [omap list_omap].
  unfold written_file at 2. by destruct (page_outcome _ _ _ _).
Qed.

Lemma errors_page_events ds pages :
  errors (concat (page_events E bgCache fonts ds <$> pages))
  = omap (failure_report E bgCache fonts ds) pages.
Proof.
  induction pages as [|page pages IH]; [done|].
  rewrite !fmap_cons. cbn [concat]. unfold errors in *.
  rewrite omap_app, IH. unfold page_events at 1. cbn [omap list_omap].
  unfold failure_report at 2. by destruct (page_outcome _ _ _ _).
Qed.

Lemma written_succeeded ds pages :
  length (omap (written_file E bgCache fonts ds) pages)
  = length (filter (λ p, succeeds E bgCache fonts ds p) pages).
Proof.
  induction pages as [|page pages IH]; [done|].
  rewrite filter_cons. cbn [omap list_omap].
  destruct (succeeds E bgCache fonts ds page) eqn:Hs;
    unfold written_file at 1; unfold succeeds in Hs;
    destruct (page_outcome _ _ _ _); try done.
  rewrite decide_True by done. simpl. by rewrite IH.
Qed.

Lemma files_after_cons ds page pages fs :
  files_after E bgCache fonts ds (page :: pages) fs
  = files_after E bgCache fonts ds pages
      (match written_file E bgCache fonts ds page with
       | Some (path, png) => <[path := png]> fs
       | None => fs
       end).
Proof. done. Qed.

Lemma files_after_untouched ds pages path : ∀ fs,
  (∀ page, page ∈ pages → succeeds E bgCache fonts ds page →
     output_path E page ≠ path) →
  files_after E bgCache fonts ds pages fs !! path = fs !! path.
Proof.
  induction pages as [|page pages IH]; intros fs Hne; [done|].
  rewrite files_after_cons, IH.
  - unfold written_file.
    destruct (page_outcome _ _ _ _) as [png|] eqn:Hout; [|done].
    apply lookup_insert_ne, Hne; [left|].
    unfold succeeds. by rewrite Hout.
  - intros p Hp. apply Hne. by right.
Qed.

Lemma satori_calls_logs texts : satori_calls (EvLog <$> texts) = [].
Proof. by induction texts. Qed.

Lemma writes_logs texts : writes (EvLog <$> texts) = [].
Proof. by induction texts. Qed.

Lemma errors_logs texts : errors (EvLog <$> texts) = [].
Proof. by induction texts. Qed.

Lemma satori_calls_app evs evs' :
  satori_calls (evs ++ evs') = satori_calls evs ++ satori_calls evs'.
Proof. apply omap_app. Qed.

Lemma writes_app evs evs' : writes (evs ++ evs') = writes evs ++ writes evs'.
Proof. apply omap_app. Qed.

Lemma errors_app evs evs' : errors (evs ++ evs') = errors evs ++ errors evs'.
Proof. apply omap_app. Qed.

Lemma logs_app evs evs' : logs (evs ++ evs') = logs evs ++ logs evs'.
Proof. apply omap_app. Qed.

Lemma log_each_run generated : ∀ w,
  log_each generated w
  = (Ok tt, after w (EvLog <$> ((λ f, "   • public/og/" +:+ f) <$> generated))).
Proof.
  induction generated as [|f generated IH]; intros w.
  - simpl. unfold ret, after. rewrite (right_id_L [] (++)). by destruct w.
  - cbn [log_each]. unfold bind, console_log. rewrite IH.
    by rewrite emit_after, after_after.
Qed.

(** The events of the generation loop and the summary. *)
Lemma generate_and_summarize_run pages w :
  let generated :=
    og_filename <$> filter (λ p, succeeds E bgCache fonts (dirs w) p) pages in
  generate_and_summarize E pages bgCache fonts w
  = (Ok (Finished generated),
     mkWorld (files_after E bgCache fonts (dirs w) pages (files w)) (dirs w)
       (trace w ++
          EvLog (nl +:+ "📄 Generating images:")
          :: concat (page_events E bgCache fonts (dirs w) <$> pages)
          ++ [EvLog (nl +:+ rule);
              EvLog (summary_line (length generated) (length pages))]
          ++ (EvLog <$> ((λ f, "   • public/og/" +:+ f) <$> generated))
          ++ [EvLog ""])).
Proof.
  intros generated.
  unfold generate_and_summarize, bind at 1 2, console_log at 1.
  cbn beta iota. rewrite generate_pages_run. cbn beta iota.
  unfold bind, console_log, ret. cbn beta iota.
  rewrite log_each_run. cbn [app]. fold generated.
  unfold emit, after. cbn [files dirs trace].
  do 2 f_equal. rewrite <- !(assoc_L (++)). done.
Qed.

(** C1: the generation loop never throws and never stops early.  Every page
    of the list has its tree handed to the renderer, in declared order; a
    page whose rendering or write throws gets an error report and nothing
    else: it is not in the list of generated files, and no file is written
    for it.  The files written are those of the pages that succeed, and the
    run prints the summary [✅ Generated n/m OG images:] with [n] the number
    of completed writes and [m] the number of pages. *)
Theorem page_failures_are_isolated (pages : list PageConfig) (w : World) :
  ∃ evs w',
    generate_and_summarize E pages bgCache fonts w
    = (Ok (Finished
             (og_filename <$> filter (λ p, succeeds E bgCache fonts (dirs w) p) pages)),
       w') ∧
    trace w' = trace w ++ evs ∧
    satori_calls evs = page_tree E bgCache <$> pages ∧
    writes evs = omap (written_file E bgCache fonts (dirs w)) pages ∧
    errors evs = omap (failure_report E bgCache fonts (dirs w)) pages ∧
    (∀ page, succeeds E bgCache fonts (dirs w) page = false →
       written_file E bgCache fonts (dirs w) page = None ∧
       is_Some (failure_report E bgCache fonts (dirs w) page)) ∧
    (∀ path,
       (∀ page, page ∈ pages → succeeds E bgCache fonts (dirs w) page →
          output_path E page ≠ path) →
       files w' !! path = files w !! path) ∧
    ("✅ Generated " +:+ pretty (length (writes evs)) +:+ "/"
       +:+ pretty (length pages) +:+ " OG images:") ∈ logs evs.
Proof.
  eexists _, _. split; [apply generate_and_summarize_run|].
  cbn [trace files]. split; [reflexivity|].
  change (EvLog (nl +:+ "📄 Generating images:") :: ?l)
    with ([EvLog (nl +:+ "📄 Generating images:")] ++ l).
  rewrite !satori_calls_app, !writes_app, !errors_app, !logs_app.
  rewrite satori_calls_page_events, writes_page_events, errors_page_events.
  rewrite satori_calls_logs, writes_logs, errors_logs.
  cbn [satori_calls writes errors logs omap list_omap app].
  rewrite !(right_id_L [] (++)).
  split_and!; try done.
  - intros page. unfold succeeds, written_file, failure_report.
    destruct (page_outcome _ _ _ _); [done | eauto].
  - intros path Hne. by apply files_after_untouched.
  - rewrite length_fmap, <- written_succeeded.
    apply elem_of_cons. right. apply elem_of_app. right.
    apply elem_of_cons. right. apply elem_of_cons. by left.
Qed.

End Generation.

(** ** Local images *)

Lemma loadImageAsBase64_run (imagePath : string) (data : bytes) (w : World) :
  files w !! imagePath = Some data →
  loadImageAsBase64 imagePath w
  = (Ok ("data:" +:+ to_text (mime_of imagePath) +:+ ";base64,"
           +:+ base64 data),
     emit (EvRead imagePath) w).
Proof.
  intros Hfile. unfold loadImageAsBase64, bind, readFileSync, ret.
  by rewrite Hfile.
Qed.

Lemma loadImageAsBase64_missing (imagePath : string) (w : World) :
  files w !! imagePath = None →
  ∃ e, loadImageAsBase64 imagePath w = (Throw e, emit (EvRead imagePath) w).
Proof.
  intros Hfile. unfold loadImageAsBase64, bind, readFileSync, ret.
  rewrite Hfile. case_bool_decide; eauto.
Qed.

(** The MIME type by extension, for every extension that is not the name of
    a property inherited from [Object.prototype]. *)
Lemma mime_of_extension (imagePath ext : string) :
  ext_of imagePath = Some ext →
  Object_prototype !! ext = None →
  mime_of imagePath
  = JsStr (if decide (ext = "png") then "image/png"
           else if decide (ext = "webp") then "image/webp"
           else "image/jpeg").
Proof.
  intros Hext Hproto. unfold mime_of. rewrite Hext.
  unfold truthy. case_bool_decide as Hempty.
  { subst ext. reflexivity. }
  cbn [default]. unfold get_property, mimeTypes. cbn [list_to_map foldr].
  destruct (decide (ext = "jpg")) as [-> | Hjpg]; [reflexivity|].
  destruct (decide (ext = "jpeg")) as [-> | Hjpeg]; [reflexivity|].
  destruct (decide (ext = "png")) as [-> | Hpng]; [reflexivity|].
  destruct (decide (ext = "webp")) as [-> | Hwebp]; [reflexivity|].
  cbn [fst snd]. unfold id.
  rewrite !lookup_insert_ne by done. rewrite lookup_empty, Hproto.
  reflexivity.
Qed.

Example mime_of_upper_case : mime_of "/site/assets/bg/Hero.PNG" = JsStr "image/png".
Proof. reflexivity. Qed.

Example mime_of_trailing_dot : mime_of "/site/assets/bg/hero." = JsStr "image/jpeg".
Proof. reflexivity. Qed.

Example mime_of_no_dot_in_name : mime_of "/site/assets.d/hero" = JsStr "image/jpeg".
Proof. reflexivity. Qed.

Example mime_of_bare_name : mime_of "webp" = JsStr "image/webp".
Proof. reflexivity. Qed.

(** C6 on an input where the code departs from it: for a file whose
    extension is [constructor], the table lookup finds the function that
    every object inherits, the fallback to 'image/jpeg' is not taken, and the
    data URI carries the text of that function in place of a MIME type. *)
Theorem loadImageAsBase64_inherited_property :
  loadImageAsBase64 "/site/assets/bg/hero.constructor"
    (Fixture.world
       [("/site/assets/bg/hero.constructor", ["M"; "a"; "n"]%byte)] [])
  = (Ok "data:function Object() { [native code] };base64,TWFu",
     after
       (Fixture.world
          [("/site/assets/bg/hero.constructor", ["M"; "a"; "n"]%byte)] [])
       [EvRead "/site/assets/bg/hero.constructor"]).
Proof. vm_compute. reflexivity. Qed.

(** ** The default background *)

Section DefaultBackground.

Context (E : Env).

(** A download touches no file and leaves one [EvDownload] and its GETs. *)
Lemma request_trace fuel : ∀ url w r w',
  request E fuel url w = Some (r, w') →
  ∃ urls, w' = after w (EvGet <$> urls).
Proof.
  induction fuel as [|fuel IH]; intros url w r w' Hrun; [done|].
  simpl in Hrun.
  destruct (https_get E url) as [msg | response].
  { injection Hrun as <- <-. by exists [url]. }
  destruct (if _ || _ then truthy (location response) else None)
    as [target|].
  - apply IH in Hrun as [urls ->]. exists (url :: urls).
    by rewrite emit_after, after_after.
  - exists [url]. by case_bool_decide; injection Hrun as <- <-.
Qed.

Lemma downloadFile_trace fuel url w r w' :
  downloadFile E fuel url w = Some (r, w') →
  ∃ urls, w' = after w (EvDownload url :: (EvGet <$> urls)).
Proof.
  unfold downloadFile. intros [urls ->]%request_trace.
  exists urls. by rewrite emit_after, after_after.
Qed.

(** Saving the downloaded bytes reads and renders nothing; it writes at most
    the default path and creates at most its directory. *)
Lemma save_default_bg_frame buffer w r w' :
  save_default_bg E buffer w = (r, w') →
  ∃ evs,
    trace w' = trace w ++ evs ∧
    reads evs = [] ∧ downloads evs = [] ∧ satori_calls evs = [] ∧
    Forall (λ write, write.1 = DEFAULT_BG_PATH E) (writes evs) ∧
    (∀ path, path ≠ DEFAULT_BG_PATH E → files w' !! path = files w !! path) ∧
    dirs w ⊆ dirs w' ∧
    dirs w' ⊆ {[dirname E (DEFAULT_BG_PATH E)]} ∪ dirs w.
Proof.
  unfold save_default_bg, bind, exists_, mkdirSync, writeFileSync,
    console_log, ret, emit.
  destruct (existsSync _ w);
    [|destruct (write_denied E (dirname E (DEFAULT_BG_PATH E)))];
    cbn [files dirs trace];
    try destruct (write_denied E (DEFAULT_BG_PATH E));
    repeat case_bool_decide;
    cbn [files dirs trace];
    intros [= <- <-]; cbn [files dirs trace];
    rewrite <- ?(assoc_L (++));
    (eexists; split; [reflexivity || (symmetry; apply (right_id_L [] (++)))|]);
    split_and!; try done; try set_solver;
    try (repeat constructor; done);
    intros path Hpath; by rewrite ?lookup_insert_ne.
Qed.

Lemma load_default_bg_local fuel bgCache w data :
  files w !! DEFAULT_BG_PATH E = Some data →
  load_default_bg E fuel bgCache w
  = Some (Ok (<[DEFAULT_BG_PATH E :=
                  "data:" +:+ to_text (mime_of (DEFAULT_BG_PATH E))
                    +:+ ";base64," +:+ base64 data]> bgCache),
          after w [EvLog "✓ Loading default background image...";
                   EvRead (DEFAULT_BG_PATH E)]).
Proof.
  intros Hfile. unfold load_default_bg, existsSync.
  rewrite bool_decide_eq_true_2 by (by rewrite Hfile).
  cbn [orb]. unfold bind, console_log.
  rewrite (loadImageAsBase64_run _ data) by done.
  unfold ret. by rewrite !emit_after, after_after.
Qed.

(** The download branch: whatever fails inside the [try] block ends in the
    [catch] block. *)
Lemma load_default_bg_absent fuel bgCache w :
  existsSync (DEFAULT_BG_PATH E) w = false →
  load_default_bg E fuel bgCache w
  = match downloadFile E fuel DEFAULT_BG_URL
            (emit (EvLog "⬇️  Downloading default background image...") w) with
    | None => None
    | Some (Throw _, w2) => Some (use_placeholder E bgCache w2)
    | Some (Ok buffer, w2) =>
        match save_default_bg E buffer w2 with
        | (Ok _, w3) =>
            Some (Ok (<[DEFAULT_BG_PATH E := network_data_url buffer]> bgCache),
                  w3)
        | (Throw _, w3) =>
            Some (use_placeholder E
                    (<[DEFAULT_BG_PATH E := network_data_url buffer]> bgCache)
                    w3)
        end
    end.
Proof. intros Habsent. unfold load_default_bg. by rewrite Habsent. Qed.

Lemma use_placeholder_run bgCache w :
  use_placeholder E bgCache w
  = (Ok (<[DEFAULT_BG_PATH E := PLACEHOLDER_BG]> bgCache),
     after w [EvErr "   ❌ Failed to download background image";
              EvLog "   Using gradient-only fallback"]).
Proof.
  unfold use_placeholder, bind, console_error, console_log, ret.
  by rewrite !emit_after, after_after.
Qed.

(** When the default background is absent and the download fails, with an
    HTTP status or with a transport error, the placeholder is cached and the
    phase goes on normally. *)
Lemma failed_download_uses_placeholder fuel bgCache w e w2 :
  existsSync (DEFAULT_BG_PATH E) w = false →
  downloadFile E fuel DEFAULT_BG_URL
    (emit (EvLog "⬇️  Downloading default background image...") w)
  = Some (Throw e, w2) →
  load_default_bg E fuel bgCache w
  = Some (Ok (<[DEFAULT_BG_PATH E := PLACEHOLDER_BG]> bgCache),
          after w2 [EvErr "   ❌ Failed to download background image";
                    EvLog "   Using gradient-only fallback"]).
Proof.
  intros Habsent Hdl. rewrite load_default_bg_absent, Hdl by done.
  by rewrite use_placeholder_run.
Qed.

(** So an absent default background never makes the phase throw, and always
    leaves an entry for the default path. *)
Lemma absent_default_never_throws fuel bgCache w r w' :
  existsSync (DEFAULT_BG_PATH E) w = false →
  load_default_bg E fuel bgCache w = Some (r, w') →
  ∃ bgCache', r = Ok bgCache' ∧ is_Some (bgCache' !! DEFAULT_BG_PATH E).
Proof.
  intros Habsent. rewrite load_default_bg_absent by done.
  destruct (downloadFile _ _ _ _) as [[[buffer|e] w2]|]; [| |done].
  - destruct (save_default_bg E buffer w2) as [[[]|e] w3].
    + intros [= <- <-]. eexists. split; [done|]. by rewrite lookup_insert_eq.
    + rewrite use_placeholder_run. intros [= <- <-].
      eexists. split; [done|]. by rewrite lookup_insert_eq.
  - rewrite use_placeholder_run. intros [= <- <-].
    eexists. split; [done|]. by rewrite lookup_insert_eq.
Qed.


End DefaultBackground.

(** C4 on an input where the code departs from it: the server answers 200
    with the image, but the default path is not writable.  The [try] block
    has already cached the downloaded image when [writeFileSync] throws; the
    [catch] block then overwrites the entry with the placeholder and reports
    a failed download. *)
Theorem unsaved_download_is_replaced_by_placeholder :
  let E :=
    Fixture.env [(DEFAULT_BG_URL, Fixture.ok200 [["J"; "F"]; ["I"; "F"]]%byte)]
      ["/site/assets/bg/og-background.jpg"] in
  let w := Fixture.world [] ["/site/assets/bg"] in
  ∃ w2 bgCache w',
    downloadFile E 1 DEFAULT_BG_URL
      (emit (EvLog "⬇️  Downloading default background image...") w)
    = Some (Ok ["J"; "F"; "I"; "F"]%byte, w2) ∧
    load_default_bg E 1 ∅ w = Some (Ok bgCache, w') ∧
    bgCache !! DEFAULT_BG_PATH E = Some PLACEHOLDER_BG ∧
    errors (trace w') = ["   ❌ Failed to download background image"] ∧
    files w' = ∅.
Proof.
  intros E w. eexists _, _, _. split_and!.
  - vm_compute. reflexivity.
  - rewrite load_default_bg_absent by (vm_compute; reflexivity).
    vm_compute downloadFile.
    cbv beta iota.
    replace (save_default_bg E _ _) with
      (@Throw unit (FsError "EACCES" "/site/assets/bg/og-background.jpg"),
       after w [EvLog "⬇️  Downloading default background image...";
                EvDownload DEFAULT_BG_URL; EvGet DEFAULT_BG_URL])
      by (vm_compute; reflexivity).
    rewrite use_placeholder_run. reflexivity.
  - rewrite insert_insert_eq. apply lookup_insert_eq.
  - vm_compute. reflexivity.
  - reflexivity.
Qed.

(** ** The background cache *)

Section BackgroundCache.

Context (E : Env).

Lemma elem_of_collect_bgPaths pages : ∀ acc path,
  path ∈ collect_bgPaths E pages acc
  ↔ path ∈ acc ∨ path ∈ omap (override_path E) pages.
Proof.
  induction pages as [|page pages IH]; intros acc path; simpl.
  - set_solver.
  - destruct (override_path E page) as [fullPath|]; rewrite IH; set_solver.
Qed.

Lemma elem_of_bgPaths pages path :
  path ∈ bgPaths E pages
  ↔ path = DEFAULT_BG_PATH E ∨ path ∈ omap (override_path E) pages.
Proof. unfold bgPaths. rewrite elem_of_collect_bgPaths. set_solver. Qed.

(** A reference to a path that is already cached does nothing at all. *)
Lemma load_page_bg_cached page fullPath bgCache w :
  override_path E page = Some fullPath →
  is_Some (bgCache !! fullPath) →
  load_page_bg E page bgCache w = (Ok bgCache, w).
Proof.
  intros Hpath Hcached. unfold load_page_bg. rewrite Hpath.
  by rewrite bool_decide_eq_true_2.
Qed.

(** One step of the loop over the pages: what it reads and what it adds. *)
Lemma load_page_bg_step page bgCache w bgCache' w' :
  load_page_bg E page bgCache w = (Ok bgCache', w') →
  ∃ evs,
    w' = after w evs ∧ downloads evs = [] ∧ satori_calls evs = [] ∧
    writes evs = [] ∧
    ((reads evs = [] ∧ bgCache' = bgCache ∧
      ∀ fullPath, override_path E page = Some fullPath →
        is_Some (bgCache !! fullPath) ∨ existsSync fullPath w = false)
     ∨ ∃ fullPath dataUrl,
         override_path E page = Some fullPath ∧ reads evs = [fullPath] ∧
         bgCache !! fullPath = None ∧ is_Some (files w !! fullPath) ∧
         bgCache' = <[fullPath := dataUrl]> bgCache).
Proof.
  unfold load_page_bg.
  destruct (override_path E page) as [fullPath|] eqn:Hpath.
  2:{ intros [= <- <-]. exists []. unfold after.
      rewrite (right_id_L [] (++)). destruct w.
      split_and!; try done. left. by split_and!. }
  case_bool_decide as Hcached.
  { intros [= <- <-]. exists []. unfold after.
    rewrite (right_id_L [] (++)). destruct w.
    split_and!; try done. left. split_and!; try done.
    intros ? [= <-]. by left. }
  unfold bind at 1, exists_.
  destruct (existsSync fullPath w) eqn:Hexists.
  - unfold bind, console_log.
    destruct (files w !! fullPath) as [data|] eqn:Hfile.
    + rewrite (loadImageAsBase64_run _ data) by done.
      unfold ret. intros [= <- <-]. eexists. split.
      { by rewrite !emit_after, after_after. }
      split_and!; try done. right. eexists _, _.
      split_and!; try done.
      by apply eq_None_not_Some.
    + destruct (loadImageAsBase64_missing fullPath
                  (emit (EvLog ("✓ Loading background for " +:+ dq
                                  +:+ slug page +:+ dq +:+ "...")) w))
        as [e ->]; [done|]. done.
  - unfold bind, console_error, console_log, ret. intros [= <- <-].
    eexists. split.
    { by rewrite !emit_after, after_after. }
    split_and!; try done. left. split_and!; try done.
    intros ? [= <-]. by right.
Qed.

Lemma existsSync_after path w evs :
  existsSync path (after w evs) = existsSync path w.
Proof. done. Qed.

Lemma reads_app evs evs' : reads (evs ++ evs') = reads evs ++ reads evs'.
Proof. apply omap_app. Qed.

Lemma downloads_app evs evs' :
  downloads (evs ++ evs') = downloads evs ++ downloads evs'.
Proof. apply omap_app. Qed.

(** The loop over the pages reads each path it adds to the cache once, and
    leaves what is cached as it is. *)
Lemma load_page_bgs_run pages : ∀ bgCache w bgCache' w',
  load_page_bgs E pages bgCache w = (Ok bgCache', w') →
  ∃ evs,
    w' = after w evs ∧ downloads evs = [] ∧ satori_calls evs = [] ∧
    writes evs = [] ∧
    NoDup (reads evs) ∧
    (∀ path, path ∈ reads evs
             ↔ bgCache !! path = None ∧
               path ∈ omap (override_path E) pages ∧
               existsSync path w = true) ∧
    (∀ path, path ∈ reads evs → is_Some (files w !! path)) ∧
    bgCache ⊆ bgCache' ∧
    dom bgCache' = dom bgCache ∪ list_to_set (reads evs).
Proof.
  induction pages as [|page pages IH]; intros bgCache w bgCache' w'.
  { intros [= <- <-]. exists []. unfold after.
    rewrite (right_id_L [] (++)). destruct w.
    split_and!; try done; [constructor | set_solver | set_solver | set_solver]. }
  cbn [load_page_bgs]. unfold bind at 1.
  destruct (load_page_bg E page bgCache w) as [[bgCache1|e] w1] eqn:Hstep;
    [|done].
  intros Hrest.
  apply load_page_bg_step in Hstep
    as (evs1 & -> & Hd1 & Hs1 & Hw1 & Hcases).
  apply IH in Hrest
    as (evs2 & -> & Hd2 & Hs2 & Hw2 & Hnodup & Hreads & Hfiles & Hsub & Hdom).
  exists (evs1 ++ evs2). rewrite after_after.
  rewrite downloads_app, satori_calls_app, writes_app, reads_app.
  rewrite Hd1, Hd2, Hs1, Hs2, Hw1, Hw2.
  split_and!; try done.
  all: destruct Hcases as [(Hr1 & -> & Hskip)
                          | (fullPath & dataUrl & Hpath & Hr1 & Hfresh & Hfile & ->)];
    rewrite ?Hr1; cbn [app omap list_omap]; rewrite ?Hpath.
  - done.
  - apply NoDup_cons. split; [|done].
    rewrite Hreads, lookup_insert_eq. by intros [? _].
  - intros path. rewrite Hreads.
    destruct (override_path E page) as [fullPath|] eqn:Hpath; [|done].
    rewrite elem_of_cons. split; [naive_solver|].
    intros (Hnone & [-> | Hin] & Hex); [|done].
    destruct (Hskip fullPath eq_refl) as [[? Hsome] | Hno]; congruence.
  - intros path. rewrite !elem_of_cons, Hreads.
    rewrite existsSync_after. split.
    + intros [-> | (Hnone & Hin & Hex)].
      * split_and!; [done | by left |].
        unfold existsSync. by rewrite bool_decide_eq_true_2.
      * split_and!; [|by right | done].
        destruct (decide (fullPath = path)) as [-> | Hne].
        -- by rewrite lookup_insert_eq in Hnone.
        -- by rewrite lookup_insert_ne in Hnone.
    + intros (Hnone & [-> | Hin] & Hex); [by left|].
      destruct (decide (fullPath = path)) as [-> | Hne]; [by left|].
      right. by rewrite lookup_insert_ne.
  - done.
  - intros path [-> | Hin]%elem_of_cons; [done|]. by apply Hfiles.
  - done.
  - etrans; [|done]. by apply insert_subseteq.
  - done.
  - rewrite Hdom, dom_insert_L. set_solver.
Qed.

Lemma projections_of_gets urls :
  reads (EvGet <$> urls) = [] ∧ downloads (EvGet <$> urls) = [] ∧
  writes (EvGet <$> urls) = [] ∧ satori_calls (EvGet <$> urls) = [].
Proof. by induction urls. Qed.

(** Split the projections of a trace along its parts, leaving those of the
    GETs of a download folded. *)
Ltac project_trace urls :=
  rewrite !reads_app, !downloads_app, !satori_calls_app, !writes_app;
  cbn [reads downloads satori_calls writes omap list_omap app];
  fold (reads (EvGet <$> urls)) (downloads (EvGet <$> urls))
    (satori_calls (EvGet <$> urls)) (writes (EvGet <$> urls)).

(** The default background is read once when it is there and downloaded
    once when it is not; nothing but the default path is written. *)
Lemma load_default_bg_frame fuel bgCache w r w' :
  load_default_bg E fuel bgCache w = Some (r, w') →
  ∃ evs,
    trace w' = trace w ++ evs ∧
    reads evs
    = (if existsSync (DEFAULT_BG_PATH E) w then [DEFAULT_BG_PATH E] else []) ∧
    downloads evs
    = (if existsSync (DEFAULT_BG_PATH E) w then [] else [DEFAULT_BG_URL]) ∧
    satori_calls evs = [] ∧
    Forall (λ write, write.1 = DEFAULT_BG_PATH E) (writes evs) ∧
    (∀ path, path ≠ DEFAULT_BG_PATH E → files w' !! path = files w !! path) ∧
    dirs w ⊆ dirs w' ∧
    dirs w' ⊆ {[dirname E (DEFAULT_BG_PATH E)]} ∪ dirs w ∧
    (∀ bgCache', r = Ok bgCache' →
       dom bgCache' = {[DEFAULT_BG_PATH E]} ∪ dom bgCache ∧
       (existsSync (DEFAULT_BG_PATH E) w = true →
        is_Some (files w !! DEFAULT_BG_PATH E))).
Proof.
  destruct (existsSync (DEFAULT_BG_PATH E) w) eqn:Hexists.
  - destruct (files w !! DEFAULT_BG_PATH E) as [data|] eqn:Hfile.
    + rewrite (load_default_bg_local _ _ _ _ data) by done.
      intros [= <- <-]. eexists. split; [reflexivity|].
      split_and!; try done; try (cbn; set_solver).
    + unfold load_default_bg. rewrite Hexists.
      unfold bind at 1, console_log.
      destruct (loadImageAsBase64_missing (DEFAULT_BG_PATH E)
                  (emit (EvLog "✓ Loading default background image...") w))
        as [e He]; [done|].
      unfold bind. rewrite He. intros [= <- <-].
      exists [EvLog "✓ Loading default background image...";
              EvRead (DEFAULT_BG_PATH E)].
      split; [by rewrite !emit_after, after_after|].
      split_and!; try done; try (cbn; set_solver).
  - rewrite load_default_bg_absent by done.
    destruct (downloadFile _ _ _ _) as [[dl w2]|] eqn:Hdl; [|done].
    apply downloadFile_trace in Hdl as [urls ->].
    rewrite emit_after, after_after.
    destruct (projections_of_gets urls) as (Hr & Hd & Hw & Hs).
    destruct dl as [buffer|e].
    + destruct (save_default_bg E buffer _) as [saved w3] eqn:Hsave.
      apply save_default_bg_frame in Hsave
        as (evs & Htrace & Hr' & Hd' & Hs' & Hw' & Hfiles & Hdirs & Hdirs').
      cbn [after trace files dirs] in Htrace, Hfiles, Hdirs, Hdirs'.
      destruct saved as [[]|e].
      * intros [= <- <-]. eexists. rewrite Htrace, <- (assoc_L (++)).
        split; [reflexivity|].
        project_trace urls; fold (reads evs) (downloads evs) (satori_calls evs) (writes evs).
        rewrite Hr, Hd, Hw, Hs, Hr', Hd', Hs'.
        split_and!; try done.
        intros ? [= <-]. by rewrite dom_insert_L.
      * rewrite use_placeholder_run. intros [= <- <-].
        cbn [after trace files dirs]. eexists.
        rewrite Htrace, <- !(assoc_L (++)).
        split; [reflexivity|].
        project_trace urls; fold (reads evs) (downloads evs) (satori_calls evs) (writes evs).
        rewrite Hr, Hd, Hw, Hs, Hr', Hd', Hs'.
        rewrite !(right_id_L [] (++)).
        split_and!; try done.
        intros ? [= <-]. rewrite !dom_insert_L. set_solver.
    + rewrite use_placeholder_run. intros [= <- <-].
      cbn [after trace files dirs]. eexists.
      rewrite <- !(assoc_L (++)). split; [reflexivity|].
      project_trace urls.
      rewrite Hr, Hd, Hw, Hs.
      split_and!; try done; try set_solver.
Qed.

(** C5, as the code has it: the cache is keyed by the resolved path.  In a
    background phase that completes, every path of [bgPaths] that exists is
    read exactly once, however many pages refer to it, and no other path is
    read; the default background is downloaded once when it does not exist
    locally, and only then; the cache holds the default path and the paths
    read; and a page whose path is already cached changes neither the cache
    nor the world. *)
Theorem backgrounds_are_loaded_once
    (fuel : nat) (pages : list PageConfig) (w w' : World)
    (bgCache : gmap string string) :
  load_backgrounds E fuel pages w = Some (Ok bgCache, w') →
  ∃ evs,
    trace w' = trace w ++ evs ∧
    NoDup (reads evs) ∧
    (∀ path, path ∈ reads evs
             ↔ path ∈ bgPaths E pages ∧ existsSync path w = true) ∧
    length (reads evs)
    = size (filter (λ path, existsSync path w = true) (bgPaths E pages)) ∧
    downloads evs
    = (if existsSync (DEFAULT_BG_PATH E) w then [] else [DEFAULT_BG_URL]) ∧
    dom bgCache = {[DEFAULT_BG_PATH E]} ∪ list_to_set (reads evs) ∧
    (∀ page fullPath cache w0,
       override_path E page = Some fullPath →
       is_Some (cache !! fullPath) →
       load_page_bg E page cache w0 = (Ok cache, w0)).
Proof.
  unfold load_backgrounds.
  destruct (load_default_bg E fuel ∅ w) as [[[bgCache1|e] w1]|] eqn:Hdefault;
    [|done|done].
  intros [= Hpages].
  apply load_default_bg_frame in Hdefault
    as (evs1 & Htrace1 & Hr1 & Hd1 & _ & _ & Hfiles1 & Hdirs1 & _ & Hcache1).
  destruct (Hcache1 _ eq_refl) as [Hdom1 Hfile1]. clear Hcache1.
  rewrite dom_empty_L, (right_id_L ∅ (∪)) in Hdom1.
  apply load_page_bgs_run in Hpages
    as (evs2 & -> & Hd2 & _ & _ & Hnodup2 & Hr2 & Hfiles2 & _ & Hdom2).
  assert (Hcached : ∀ path, bgCache1 !! path = None ↔ path ≠ DEFAULT_BG_PATH E).
  { intros path. rewrite <- not_elem_of_dom, Hdom1. set_solver. }
  assert (Hreads : ∀ path,
             path ∈ reads (evs1 ++ evs2)
             ↔ path ∈ bgPaths E pages ∧ existsSync path w = true).
  { intros path. rewrite reads_app, elem_of_app, Hr2, Hcached, elem_of_bgPaths.
    split.
    - intros [Hin | (Hne & Hin & Hex)].
      + destruct (existsSync (DEFAULT_BG_PATH E) w) eqn:Hex;
          rewrite Hr1 in Hin; [|by apply elem_of_nil in Hin].
        apply list_elem_of_singleton in Hin as ->. by split; [left|].
      + split; [by right|].
        assert (is_Some (files w !! path)) as Hfile.
        { rewrite <- Hfiles1 by done. apply Hfiles2, Hr2.
          by rewrite Hcached. }
        unfold existsSync. by rewrite bool_decide_eq_true_2.
    - intros [[-> | Hin] Hex].
      + left. rewrite Hr1, Hex. by left.
      + destruct (decide (path = DEFAULT_BG_PATH E)) as [-> | Hne].
        * left. rewrite Hr1, Hex. by left.
        * right. split_and!; try done.
          unfold existsSync in *.
          rewrite Hfiles1 by done.
          apply orb_true_iff in Hex as [Hex | Hex]; apply orb_true_iff;
            [by left | right].
          apply bool_decide_eq_true in Hex. apply bool_decide_eq_true.
          set_solver. }
  assert (Hnodup : NoDup (reads (evs1 ++ evs2))).
  { rewrite reads_app. apply NoDup_app. split_and!; [| |done].
    - rewrite Hr1. destruct (existsSync _ w); [apply NoDup_singleton|constructor].
    - intros path Hin1 Hin2. apply Hr2 in Hin2 as [Hnone _].
      apply Hcached in Hnone.
      rewrite Hr1 in Hin1. destruct (existsSync _ w);
        [by apply list_elem_of_singleton in Hin1 | by apply elem_of_nil in Hin1]. }
  exists (evs1 ++ evs2). cbn [after trace].
  split_and!.
  - by rewrite Htrace1, (assoc_L (++)).
  - done.
  - done.
  - rewrite <- (size_list_to_set (C := gset string)) by done.
    f_equal. apply set_eq. intros path.
    rewrite elem_of_list_to_set, elem_of_filter, Hreads. tauto.
  - rewrite downloads_app, Hd1, Hd2. apply (right_id_L [] (++)).
  - rewrite Hdom2, Hdom1, reads_app, list_to_set_app_L, Hr1.
    destruct (existsSync _ w); set_solver.
  - intros page fullPath cache w0. apply load_page_bg_cached.
Qed.

End BackgroundCache.



(** Two pages share one override, a third has none: the shared file and the
    default are read once each, and nothing is downloaded. *)
Lemma backgrounds_are_loaded_once_witness :
  let E := Fixture.env [] [] in
  let pages :=
    [ Fixture.page "a" (Some "assets/bg/shared.png") None;
      Fixture.page "b" (Some "assets/bg/shared.png") None;
      Fixture.page "c" None None ] in
  let w :=
    Fixture.world
      [ ("/site/assets/bg/og-background.jpg", ["J"]%byte);
        ("/site/assets/bg/shared.png", ["P"]%byte) ] [] in
  ∃ bgCache w' evs,
    load_backgrounds E 0 pages w = Some (Ok bgCache, w') ∧
    trace w' = trace w ++ evs ∧
    NoDup (reads evs) ∧
    length (reads evs) = 2%nat ∧
    downloads evs = [].
Proof.
  intros E pages w.
  destruct (load_backgrounds E 0 pages w) as [[[bgCache|e] w']|] eqn:Hrun;
    [|by vm_compute in Hrun..].
  destruct (backgrounds_are_loaded_once E 0 pages w w' bgCache Hrun)
    as (evs & Htrace & Hnodup & _ & Hlen & Hdl & _).
  exists bgCache, w', evs. split_and!; [done..| |].
  - rewrite Hlen. vm_compute. reflexivity.
  - rewrite Hdl. vm_compute. reflexivity.
Defined.

(** C5 as stated fails on a first run: the default background does not
    exist and no page has an override, so no resolved path exists, and yet
    one fetch is made. *)
Lemma absent_default_is_one_operation :
  ¬ operations_match_existing_paths (Fixture.env [] []).
Proof.
  intros Hclaim.
  destruct (Hclaim 1%nat PAGES (Fixture.world [] [])
              {[ "/site/assets/bg/og-background.jpg" := PLACEHOLDER_BG ]}
              (after (Fixture.world [] [])
                 [EvLog "⬇️  Downloading default background image...";
                  EvDownload DEFAULT_BG_URL; EvGet DEFAULT_BG_URL;
                  EvErr "   ❌ Failed to download background image";
                  EvLog "   Using gradient-only fallback"]))
    as (evs & Htrace & Hcount).
  { vm_compute. reflexivity. }
  cbn [after trace Fixture.world app] in Htrace. subst evs.
  vm_compute in Hcount. discriminate Hcount.
Qed.

(** ** Fonts *)

Section Fonts.

Context (E : Env).

(** The banner and the output directory: no file is read, written or
    rendered. *)
Lemma prologue_frame pages w r w1 :
  prologue E pages w = (r, w1) →
  ∃ evs,
    trace w1 = trace w ++ evs ∧ satori_calls evs = [] ∧ writes evs = [] ∧
    files w1 = files w.
Proof.
  unfold prologue, ensure_output_dir, bind, console_log, exists_, mkdirSync,
    ret, emit.
  cbn [files dirs trace].
  destruct (existsSync _ _); [|destruct (write_denied E _)];
    cbn [files dirs trace]; intros [= <- <-]; cbn [files dirs trace];
    rewrite <- ?(assoc_L (++)); eexists; (split; [reflexivity|]); done.
Qed.

(** The font loop stops at the first font that is missing, and fills the
    font list when none is. *)
Lemma load_fonts_run names : ∀ fonts w,
  (∀ f, f ∈ names → existsSync (font_path E f) w = true →
        is_Some (files w !! font_path E f)) →
  ∃ evs loaded,
    load_fonts E names fonts w = (Ok loaded, after w evs) ∧
    satori_calls evs = [] ∧ writes evs = [] ∧
    (∀ f, f ∈ names → existsSync (font_path E f) w = false →
          loaded = ProcessExit 1) ∧
    ((∀ f, f ∈ names → existsSync (font_path E f) w = true) →
     ∃ loaded_fonts, loaded = FontsLoaded loaded_fonts).
Proof.
  induction names as [|fontFile names IH]; intros fonts w Hfiles.
  { exists [], (FontsLoaded fonts). unfold after.
    rewrite (right_id_L [] (++)). destruct w.
    split_and!; try done; [by intros f Hf%elem_of_nil | eauto]. }
  cbn [load_fonts]. unfold bind at 1, exists_.
  destruct (existsSync (font_path E fontFile) w) eqn:Hexists.
  - destruct (Hfiles fontFile) as [data Hdata]; [by left | done |].
    unfold bind at 1, readFileSync. rewrite Hdata.
    destruct (IH (fonts ++ [mkFont "Montserrat" data (weight_of fontFile)
                              "normal"])
                (emit (EvRead (font_path E fontFile)) w))
      as (evs & loaded & -> & Hs & Hw & Hmissing & Hall).
    { intros f Hf. apply Hfiles. by right. }
    exists (EvRead (font_path E fontFile) :: evs), loaded.
    rewrite emit_after, after_after.
    split_and!; try done.
    + intros f [-> | Hf]%elem_of_cons Hno; [congruence|].
      by apply (Hmissing f).
    + intros Hpresent. apply Hall. intros f Hf. apply Hpresent. by right.
  - unfold bind, console_error, console_log, ret.
    eexists _, _. split; [by rewrite !emit_after, after_after|].
    split_and!; try done.
    intros Hpresent. rewrite Hpresent in Hexists by (by left). done.
Qed.

(** With the fonts in place the run goes through the whole page list and
    ends normally, whatever happens to single pages. *)
Lemma main_finishes fuel pages w bgCache w2 :
  setup E fuel pages w = Some (Ok bgCache, w2) →
  (∀ f, f ∈ fontFiles → is_Some (files w2 !! font_path E f)) →
  ∃ fonts w',
    main E fuel pages w
    = Some (Finished
              (og_filename <$>
                 filter (λ p, succeeds E bgCache fonts (dirs w2) p) pages),
            w') ∧
    exit_code
      (Finished
         (og_filename <$>
            filter (λ p, succeeds E bgCache fonts (dirs w2) p) pages))
    = 0.
Proof.
  intros Hsetup Hfonts. unfold main. rewrite Hsetup.
  destruct (load_fonts_run fontFiles [] w2) as (evs & loaded & Hrun & _ & _ & _ & Hall).
  { intros f Hf _. by apply Hfonts. }
  destruct Hall as [fonts ->].
  { intros f Hf. unfold existsSync.
    by rewrite bool_decide_eq_true_2 by (by apply Hfonts). }
  exists fonts. unfold render_phase, bind at 1. rewrite Hrun.
  unfold bind, console_log. rewrite generate_and_summarize_run.
  eexists. by split.
Qed.

(** C2, as the code has it: when the run gets to the font loop, which is
    when the output directory can be ensured and the background phase
    settles without an uncaught error, and one of the three font files is
    absent there (the font paths that exist being regular files), the run
    ends by [process.exit(1)].  No page has been handed to the renderer, and
    the only file the run may have written is the local copy of the default
    background. *)
Theorem missing_font_exits_before_rendering
    (fuel : nat) (pages : list PageConfig) (w w2 : World)
    (bgCache : gmap string string) (fontFile : string) :
  setup E fuel pages w = Some (Ok bgCache, w2) →
  fontFile ∈ fontFiles →
  existsSync (font_path E fontFile) w2 = false →
  (∀ f, f ∈ fontFiles → existsSync (font_path E f) w2 = true →
        is_Some (files w2 !! font_path E f)) →
  ∃ evs w',
    main E fuel pages w = Some (Exited 1, w') ∧
    exit_code (Exited 1) ≠ 0 ∧
    trace w' = trace w ++ evs ∧
    satori_calls evs = [] ∧
    Forall (λ write, write.1 = DEFAULT_BG_PATH E) (writes evs) ∧
    (∀ path, path ≠ DEFAULT_BG_PATH E → files w' !! path = files w !! path).
Proof.
  intros Hsetup Hfont Hmissing Hfiles.
  unfold main. rewrite Hsetup.
  destruct (load_fonts_run fontFiles [] w2 Hfiles)
    as (evs3 & loaded & Hfonts & Hs3 & Hw3 & Hexit & _).
  rewrite (Hexit fontFile Hfont Hmissing) in Hfonts.
  unfold render_phase, bind. rewrite Hfonts. unfold ret, settle.
  unfold setup in Hsetup.
  destruct (prologue E pages w) as [[[]|e] w1] eqn:Hprologue; [|done].
  apply prologue_frame in Hprologue as (evs1 & Ht1 & Hs1 & Hw1 & Hf1).
  unfold load_backgrounds in Hsetup.
  destruct (load_default_bg E fuel ∅ w1) as [[[bgCache1|e] wd]|] eqn:Hdefault;
    [|done|done].
  injection Hsetup as Hpages.
  apply load_default_bg_frame in Hdefault
    as (evsd & Htd & _ & _ & Hsd & Hwd & Hfd & _).
  apply load_page_bgs_run in Hpages as (evs2 & -> & _ & Hs2 & Hw2 & _).
  exists (evs1 ++ evsd ++ evs2 ++ evs3), (after (after wd evs2) evs3).
  split_and!; try done.
  - cbn [after trace]. rewrite Htd, Ht1. by rewrite <- !(assoc_L (++)).
  - rewrite !satori_calls_app. by rewrite Hs1, Hsd, Hs2, Hs3.
  - rewrite !writes_app, Hw1, Hw2, Hw3. cbn [app].
    by rewrite (right_id_L [] (++)).
  - intros path Hne. cbn [after files]. by rewrite Hfd, Hf1.
Qed.

End Fonts.

(** The fonts were never downloaded: the run stops at the first of them. *)
Lemma missing_font_exits_before_rendering_witness :
  let E := Fixture.env [] [] in
  let w :=
    Fixture.world [("/site/assets/bg/og-background.jpg", ["J"]%byte)] [] in
  ∃ evs w',
    main E 0 PAGES w = Some (Exited 1, w') ∧
    exit_code (Exited 1) ≠ 0 ∧
    trace w' = trace w ++ evs ∧
    satori_calls evs = [] ∧
    Forall (λ write, write.1 = DEFAULT_BG_PATH E) (writes evs) ∧
    (∀ path, path ≠ DEFAULT_BG_PATH E → files w' !! path = files w !! path).
Proof.
  intros E w.
  destruct (setup E 0 PAGES w) as [[[bgCache|e] w2]|] eqn:Hsetup;
    [|by vm_compute in Hsetup..].
  apply (missing_font_exits_before_rendering E 0 PAGES w w2 bgCache
           "Montserrat-Bold.ttf" Hsetup).
  - by left.
  - vm_compute in Hsetup. injection Hsetup as _ <-. vm_compute. reflexivity.
  - vm_compute in Hsetup. injection Hsetup as _ <-.
    intros f Hf. vm_compute.
    repeat (apply elem_of_cons in Hf as [-> | Hf]; [discriminate|]).
    by apply elem_of_nil in Hf.
Defined.

(** C2 as stated fails: with every font missing, a default background that
    is absent locally and a server that redirects the background's URL to
    itself, the download never settles and the run never gets to exit. *)
Lemma redirect_loop_keeps_the_run_from_exiting :
  ¬ missing_font_always_exits
      (Fixture.env [(DEFAULT_BG_URL, Fixture.redirect 301 DEFAULT_BG_URL)] []).
Proof.
  intros Hclaim.
  destruct (Hclaim PAGES (Fixture.world [] []) "Montserrat-Bold.ttf")
    as (fuel & outcome & w' & Hrun & _); [by left | by vm_compute |].
  unfold main, setup in Hrun.
  destruct (prologue _ PAGES _) as [[[]|e] w1] eqn:Hprologue;
    [|by vm_compute in Hprologue].
  vm_compute in Hprologue. injection Hprologue as <-.
  unfold load_backgrounds in Hrun.
  rewrite load_default_bg_absent in Hrun by (by vm_compute).
  unfold downloadFile in Hrun.
  rewrite request_redirect_loop in Hrun; [done|].
  exists (mkResponse 301 (Some DEFAULT_BG_URL) [] None).
  split_and!; [by vm_compute | by left | done | done].
Qed.

(** ** Whole runs *)

(** Three pages, the second with a malformed accent colour: two files are
    written and the summary says 2 out of 3. *)
Example one_bad_page_of_three :
  let E := Fixture.env [] [] in
  let pages :=
    [ Fixture.page "a" None None;
      Fixture.page "b" None (Some (mkAccent "not-a-color" "#000" "#fff"));
      Fixture.page "c" None None ] in
  let w :=
    Fixture.world
      (("/site/assets/bg/og-background.jpg", ["J"]%byte) :: Fixture.fonts_present)
      ["/site/public/og"] in
  ∃ w',
    main E 0 pages w = Some (Finished ["og-a.png"; "og-c.png"], w') ∧
    "✅ Generated 2/3 OG images:" ∈ logs (trace w') ∧
    errors (trace w') = ["     Error: invalid color"] ∧
    is_Some (files w' !! "/site/public/og/og-a.png") ∧
    files w' !! "/site/public/og/og-b.png" = None ∧
    is_Some (files w' !! "/site/public/og/og-c.png").
Proof.
  intros E pages w. eexists. split; [vm_compute; reflexivity|].
  split_and!.
  - refine (bool_decide_unpack _ _). vm_compute. exact I.
  - vm_compute. reflexivity.
  - refine (bool_decide_unpack _ _). vm_compute. exact I.
  - vm_compute. reflexivity.
  - refine (bool_decide_unpack _ _). vm_compute. exact I.
Qed.

(** A page whose override is missing gets the tree of a page without one. *)
Example missing_override_falls_back_to_default :
  let E := Fixture.env [] [] in
  let w :=
    Fixture.world [("/site/assets/bg/og-background.jpg", ["J"]%byte)] [] in
  ∃ bgCache w',
    load_backgrounds E 0 [Fixture.page "a" (Some "assets/bg/none.png") None] w
    = Some (Ok bgCache, w') ∧
    resolve_bg E bgCache (Fixture.page "a" (Some "assets/bg/none.png") None)
    = resolve_bg E bgCache (Fixture.page "a" None None) ∧
    length (errors (trace w')) = 1%nat.
Proof.
  intros E w. eexists _, _. split; [vm_compute; reflexivity|].
  split; vm_compute; reflexivity.
Qed.

(** The redirect chain 301, 301, 200 ends with the body of the 200 response
    cached and saved. *)
Example redirects_end_at_the_body :
  let E :=
    Fixture.env
      [ (DEFAULT_BG_URL, Fixture.redirect 301 "https://cdn.example/a");
        ("https://cdn.example/a", Fixture.redirect 301 "https://cdn.example/b");
        ("https://cdn.example/b", Fixture.ok200 [["M"; "a"]; ["n"]]%byte) ] [] in
  ∃ bgCache w',
    load_default_bg E 3 ∅ (Fixture.world [] []) = Some (Ok bgCache, w') ∧
    bgCache !! DEFAULT_BG_PATH E = Some "data:image/jpeg;base64,TWFu" ∧
    files w' !! DEFAULT_BG_PATH E = Some ["M"; "a"; "n"]%byte.
Proof.
  intros E. eexists _, _. split; [vm_compute; reflexivity|].
  split; vm_compute; reflexivity.
Qed.

(** The outcome of a run does not depend on the fuel it is given, once that
    is enough for the download to settle. *)
Lemma main_fuel_mono (E : Env) (fuel fuel' : nat) (pages : list PageConfig)
    (w : World) (r : Outcome * World) :
  main E fuel pages w = Some r →
  (fuel ≤ fuel')%nat →
  main E fuel' pages w = Some r.
Proof.
  intros Hrun Hle. unfold main, setup, load_backgrounds in *.
  destruct (prologue E pages w) as [[[]|e] w1]; [|done].
  unfold load_default_bg in *.
  destruct (existsSync (DEFAULT_BG_PATH E) w1); [done|].
  destruct (downloadFile E fuel _ _) as [dl|] eqn:Hdl; [|done].
  by rewrite (downloadFile_fuel_mono _ _ _ _ _ _ Hdl Hle).
Qed.

(** ** The download: cycles and failures below the HTTP level *)

Section DownloadFailures.

Context (E : Env).

Lemma request_cycle url cycle :
  redirect_chain E url cycle url →
  cycle ≠ [] →
  ∀ fuel w, request E fuel url w = None.
Proof.
  intros Hcycle Hne fuel.
  induction (lt_wf fuel) as [fuel _ IH]. intros w.
  destruct (decide (fuel ≤ length cycle)%nat) as [Hle|Hgt].
  - by apply (request_needs_every_hop E url cycle url).
  - replace fuel with (length cycle + (fuel - length cycle))%nat by lia.
    rewrite (request_along_chain E _ _ _ Hcycle). apply IH.
    destruct cycle; [done|simpl; lia].
Qed.

(** X1: the download puts no bound on the redirects it follows.  When the
    redirects from [url] lead into a cycle (some URL that, after one or more
    followed redirects, is reached again), the promise never settles: it
    neither resolves nor rejects, however many requests it is allowed. *)
Theorem redirect_cycle_never_settles
    (url entry : string) (lead cycle : list string) :
  redirect_chain E url lead entry →
  redirect_chain E entry cycle entry →
  cycle ≠ [] →
  ∀ fuel w, downloadFile E fuel url w = None.
Proof.
  intros Hlead Hcycle Hne fuel w. unfold downloadFile.
  destruct (decide (fuel ≤ length lead)%nat) as [Hle|Hgt].
  - by apply (request_needs_every_hop E url lead entry).
  - replace fuel with (length lead + (fuel - length lead))%nat by lia.
    rewrite (request_along_chain E _ _ _ Hlead).
    by apply (request_cycle entry cycle).
Qed.

(** X2: failures below the HTTP level reject the download with the error
    the platform reports.  After any chain of followed redirects, a request
    that emits 'error' (no connection, DNS failure) rejects with that error,
    and so does a 200 response whose body stream emits 'error': the chunks
    received so far are dropped.  No request follows the failed one. *)
Theorem transport_errors_reject
    (url last msg : string) (visited : list string) (fuel : nat) (w : World) :
  redirect_chain E url visited last →
  (length visited < fuel)%nat →
  https_get E last = ConnectionError msg
  ∨ (∃ response,
       https_get E last = Responds response ∧
       statusCode response = 200 ∧
       stream_error response = Some msg) →
  downloadFile E fuel url w
  = Some (Throw (TransportError msg),
          after w (EvDownload url :: (EvGet <$> visited ++ [last]))).
Proof.
  intros Hchain Hfuel Hfail. unfold downloadFile.
  replace fuel with (length visited + S (fuel - S (length visited)))%nat by lia.
  rewrite (request_along_chain E _ _ _ Hchain).
  rewrite emit_after, after_after, fmap_app. cbn [fmap list_fmap].
  destruct Hfail as [Herr | (response & Hget & Hstatus & Hstream)].
  - rewrite (request_connection_error E _ _ msg) by done.
    by rewrite emit_after, after_after, <- app_assoc.
  - rewrite (request_terminal E _ _ response); [|done|left; lia].
    rewrite bool_decide_eq_false_2 by (intros ?; lia).
    unfold read_body. rewrite Hstream.
    by rewrite emit_after, after_after, <- app_assoc.
Qed.

End DownloadFailures.

Lemma redirect_cycle_never_settles_witness :
  downloadFile
    (Fixture.env
       [ ("https://a.example/bg.jpg", Fixture.redirect 301 "https://b.example/bg.jpg");
         ("https://b.example/bg.jpg", Fixture.redirect 302 "https://c.example/bg.jpg");
         ("https://c.example/bg.jpg", Fixture.redirect 301 "https://b.example/bg.jpg") ]
       [])
    1000 "https://a.example/bg.jpg" (Fixture.world [] [])
  = None.
Proof.
  apply (redirect_cycle_never_settles _ _ "https://b.example/bg.jpg"
           ["https://a.example/bg.jpg"]
           ["https://b.example/bg.jpg"; "https://c.example/bg.jpg"]).
  - eapply chain_hop; [|apply chain_done].
    eexists. split_and!; [reflexivity | by left | reflexivity | done].
  - eapply chain_hop; [|eapply chain_hop; [|apply chain_done]].
    + eexists. split_and!; [reflexivity | by right | reflexivity | done].
    + eexists. split_and!; [reflexivity | by left | reflexivity | done].
  - done.
Defined.

Lemma transport_errors_reject_witness :
  downloadFile
    (Fixture.env
       [ ("https://a.example/bg.jpg", Fixture.redirect 301 "https://b.example/bg.jpg");
         ("https://b.example/bg.jpg",
          Responds (mkResponse 200 None [["J"; "F"]]%byte (Some "Error: aborted"))) ]
       [])
    2 "https://a.example/bg.jpg" (Fixture.world [] [])
  = Some (Throw (TransportError "Error: aborted"),
          after (Fixture.world [] [])
            (EvDownload "https://a.example/bg.jpg"
               :: (EvGet <$> ["https://a.example/bg.jpg"]
                               ++ ["https://b.example/bg.jpg"]))).
Proof.
  apply (transport_errors_reject _ _ "https://b.example/bg.jpg").
  - eapply chain_hop; [|apply chain_done].
    eexists. split_and!; [reflexivity | by left | reflexivity | done].
  - simpl. lia.
  - right. eexists. split_and!; reflexivity.
Defined.

(** ** What the background cache holds after the background phase *)

Section CacheEntries.

Context (E : Env).

Lemma local_data_url_is_data_url path data :
  is_data_url (local_data_url path data).
Proof.
  unfold is_data_url, local_data_url. simpl.
  match goal with |- String.prefix "" ?s = true => by destruct s end.
Qed.

Lemma truthy_data_url s : is_data_url s → truthy (Some s) = Some s.
Proof.
  intros Hs. unfold truthy. case_bool_decide as Hempty; [|done].
  by rewrite Hempty in Hs.
Qed.

(** One step of the loop over the pages: the entry it adds, if any. *)
Lemma load_page_bg_entry page bgCache w bgCache' w' :
  load_page_bg E page bgCache w = (Ok bgCache', w') →
  bgCache' = bgCache
  ∨ ∃ fullPath data,
      override_path E page = Some fullPath ∧
      files w !! fullPath = Some data ∧
      bgCache' = <[fullPath := local_data_url fullPath data]> bgCache.
Proof.
  unfold load_page_bg.
  destruct (override_path E page) as [fullPath|] eqn:Hpath.
  2:{ intros [= <- <-]. by left. }
  case_bool_decide as Hcached.
  { intros [= <- <-]. by left. }
  unfold bind at 1, exists_.
  destruct (existsSync fullPath w) eqn:Hexists.
  - unfold bind, console_log.
    destruct (files w !! fullPath) as [data|] eqn:Hfile.
    + rewrite (loadImageAsBase64_run _ data) by done.
      unfold ret. intros [= <- <-]. right. by eexists _, _.
    + destruct (loadImageAsBase64_missing fullPath
                  (emit (EvLog ("✓ Loading background for " +:+ dq
                                  +:+ slug page +:+ dq +:+ "...")) w))
        as [e ->]; [done|]. done.
  - unfold bind, console_error, console_log, ret. intros [= <- <-]. by left.
Qed.

(** Every entry the loop over the pages leaves in the cache was there before
    or is the data URI of an override that is a file. *)
Lemma load_page_bgs_entries pages : ∀ bgCache w bgCache' w',
  load_page_bgs E pages bgCache w = (Ok bgCache', w') →
  ∀ path dataUrl,
    bgCache' !! path = Some dataUrl →
    bgCache !! path = Some dataUrl
    ∨ (path ∈ omap (override_path E) pages ∧
       ∃ data, files w !! path = Some data ∧
               dataUrl = local_data_url path data).
Proof.
  induction pages as [|page pages IH]; intros bgCache w bgCache' w'.
  { intros [= <- <-] path dataUrl. by left. }
  cbn [load_page_bgs]. unfold bind at 1.
  destruct (load_page_bg E page bgCache w) as [[bgCache1|e] w1] eqn:Hstep;
    [|done].
  intros Hrest path dataUrl Hentry.
  pose proof (load_page_bg_entry _ _ _ _ _ Hstep) as Hadded.
  apply load_page_bg_step in Hstep as (evs1 & -> & _).
  destruct (IH _ _ _ _ Hrest path dataUrl Hentry)
    as [Hold | (Hin & data & Hfile & ->)].
  - destruct Hadded as [-> | (fullPath & data & Hpath & Hfile & ->)];
      [by left|].
    destruct (decide (fullPath = path)) as [-> | Hne].
    + rewrite lookup_insert_eq in Hold. injection Hold as <-.
      right. cbn [omap list_omap]. rewrite Hpath.
      split; [by left | by exists data].
    + rewrite lookup_insert_ne in Hold by done. by left.
  - right. split; [|by exists data].
    cbn [omap list_omap]. destruct (override_path E page); [by right|done].
Qed.

(** The entry of the default path: a data URI in every case, and that of the
    local file when there is one. *)
Lemma load_default_bg_entry fuel bgCache w bgCache' w' :
  load_default_bg E fuel bgCache w = Some (Ok bgCache', w') →
  ∃ dataUrl,
    bgCache' = <[DEFAULT_BG_PATH E := dataUrl]> bgCache ∧
    is_data_url dataUrl ∧
    ∀ data, files w !! DEFAULT_BG_PATH E = Some data →
            dataUrl = local_data_url (DEFAULT_BG_PATH E) data.
Proof.
  destruct (existsSync (DEFAULT_BG_PATH E) w) eqn:Hexists.
  - destruct (files w !! DEFAULT_BG_PATH E) as [data|] eqn:Hfile.
    + rewrite (load_default_bg_local _ _ _ _ data) by done.
      intros [= <- <-]. eexists. split; [reflexivity|].
      split; [apply local_data_url_is_data_url|]. by intros ? [= <-].
    + unfold load_default_bg. rewrite Hexists.
      unfold bind at 1, console_log.
      destruct (loadImageAsBase64_missing (DEFAULT_BG_PATH E)
                  (emit (EvLog "✓ Loading default background image...") w))
        as [e He]; [done|].
      unfold bind. by rewrite He.
  - assert (files w !! DEFAULT_BG_PATH E = None) as Hfile.
    { unfold existsSync in Hexists.
      apply orb_false_iff in Hexists as [Hno _].
      apply bool_decide_eq_false in Hno. by apply eq_None_not_Some. }
    rewrite load_default_bg_absent by done.
    destruct (downloadFile _ _ _ _) as [[[buffer|e] w2]|]; [| |done].
    + destruct (save_default_bg E buffer w2) as [[[]|e] w3].
      * intros [= <- <-]. eexists. split; [reflexivity|].
        split; [reflexivity|]. intros data. by rewrite Hfile.
      * rewrite use_placeholder_run. intros [= <- <-].
        exists PLACEHOLDER_BG. rewrite insert_insert_eq.
        split; [reflexivity|]. split; [reflexivity|].
        intros data. by rewrite Hfile.
    + rewrite use_placeholder_run. intros [= <- <-].
      exists PLACEHOLDER_BG. split; [reflexivity|]. split; [reflexivity|].
      intros data. by rewrite Hfile.
Qed.

(** The cache after a background phase that completes, entry by entry:
    the default path holds a data URI (that of the local file when there is
    one), an override that is a file holds the data URI of that file, and
    nothing else is cached. *)
Lemma load_backgrounds_entries fuel pages w bgCache w' :
  load_backgrounds E fuel pages w = Some (Ok bgCache, w') →
  (∃ dataUrl,
     bgCache !! DEFAULT_BG_PATH E = Some dataUrl ∧
     is_data_url dataUrl ∧
     ∀ data, files w !! DEFAULT_BG_PATH E = Some data →
             dataUrl = local_data_url (DEFAULT_BG_PATH E) data) ∧
  (∀ path, path ≠ DEFAULT_BG_PATH E →
     bgCache !! path
     = if decide (path ∈ omap (override_path E) pages)
       then local_data_url path <$> files w !! path
       else None).
Proof.
  unfold load_backgrounds.
  destruct (load_default_bg E fuel ∅ w) as [[[bgCache1|e] w1]|] eqn:Hdefault;
    [|done|done].
  intros [= Hpages].
  pose proof (load_default_bg_entry _ _ _ _ _ Hdefault)
    as (dataUrl & -> & Hurl & Hlocal).
  apply load_default_bg_frame in Hdefault
    as (_ & _ & _ & _ & _ & _ & Hfiles1 & _).
  pose proof (load_page_bgs_entries _ _ _ _ _ Hpages) as Hentries.
  apply load_page_bgs_run in Hpages
    as (evs2 & -> & _ & _ & _ & _ & Hreads & _ & Hsub & Hdom).
  split.
  { exists dataUrl. split_and!; [|done|done].
    eapply lookup_weaken; [|done]. apply lookup_insert_eq. }
  intros path Hne.
  assert (Hfresh : (<[DEFAULT_BG_PATH E := dataUrl]> (∅ : gmap string string)) !! path = None).
  { by rewrite lookup_insert_ne, lookup_empty. }
  destruct (bgCache !! path) as [u|] eqn:Hentry.
  - destruct (Hentries _ _ Hentry) as [Hold | (Hin & data & Hfile & ->)];
      [congruence|].
    rewrite decide_True by done.
    rewrite <- Hfiles1 by done. by rewrite Hfile.
  - case_decide as Hin; [|done].
    destruct (files w !! path) as [data|] eqn:Hfile; [|done].
    exfalso. apply not_elem_of_dom in Hentry. apply Hentry.
    rewrite Hdom, elem_of_union, elem_of_list_to_set. right.
    apply Hreads. split_and!; [done..|].
    unfold existsSync. rewrite Hfiles1, Hfile by done.
    by rewrite bool_decide_eq_true_2.
Qed.

(** X3: whatever the pages ask for and whatever the download does, a
    background phase that completes gives every page a data URI as its
    background: the empty-string fallback of [bgCache.get(...) || ''] is
    never what a page is rendered with. *)
Theorem every_background_is_a_data_url
    (fuel : nat) (pages : list PageConfig) (w w' : World)
    (bgCache : gmap string string) (page : PageConfig) :
  load_backgrounds E fuel pages w = Some (Ok bgCache, w') →
  is_data_url (resolve_bg E bgCache page).
Proof.
  intros Hrun.
  apply load_backgrounds_entries in Hrun
    as [(dataUrl & Hdefault & Hurl & _) Hothers].
  unfold resolve_bg. rewrite Hdefault, (truthy_data_url _ Hurl). cbn [default].
  destruct (override_path E page) as [fullPath|]; [|done].
  destruct (decide (fullPath = DEFAULT_BG_PATH E)) as [-> | Hne].
  { by rewrite Hdefault, (truthy_data_url _ Hurl). }
  rewrite (Hothers _ Hne). case_decide; [|done].
  destruct (files w !! fullPath) as [data|]; [|done].
  cbn [fmap option_fmap option_map].
  rewrite truthy_data_url by apply local_data_url_is_data_url.
  apply local_data_url_is_data_url.
Qed.

(** X4: a page whose [bgImage] does not name a file is rendered like the
    same page without [bgImage]: in a background phase that completes it gets
    the default background, and the tree built for it is the tree of the page
    with the field left out. *)
Theorem missing_override_uses_the_default
    (fuel : nat) (pages : list PageConfig) (w w' : World)
    (bgCache : gmap string string) (page : PageConfig) (fullPath : string) :
  load_backgrounds E fuel pages w = Some (Ok bgCache, w') →
  override_path E page = Some fullPath →
  files w !! fullPath = None →
  resolve_bg E bgCache page = resolve_bg E bgCache (without_bgImage page) ∧
  page_tree E bgCache page = page_tree E bgCache (without_bgImage page).
Proof.
  intros Hrun Hpath Hfile.
  apply load_backgrounds_entries in Hrun
    as [(dataUrl & Hdefault & Hurl & _) Hothers].
  assert (resolve_bg E bgCache page
          = resolve_bg E bgCache (without_bgImage page)) as Hsame.
  { unfold resolve_bg. rewrite Hpath. cbn [without_bgImage override_path bgImage truthy mbind option_bind].
    rewrite Hdefault, (truthy_data_url _ Hurl). cbn [default].
    destruct (decide (fullPath = DEFAULT_BG_PATH E)) as [-> | Hne].
    - by rewrite Hdefault, (truthy_data_url _ Hurl).
    - rewrite (Hothers _ Hne), Hfile. by case_decide. }
  split; [done|]. unfold page_tree. by rewrite Hsame.
Qed.

(** X5: a page of the list whose [bgImage] names a file is rendered with
    that file: in a background phase that completes, its background is the
    data URI of the file's bytes as they were when the run started, with the
    MIME type of the file's own path. *)
Theorem existing_override_is_used
    (fuel : nat) (pages : list PageConfig) (w w' : World)
    (bgCache : gmap string string) (page : PageConfig) (fullPath : string)
    (data : bytes) :
  load_backgrounds E fuel pages w = Some (Ok bgCache, w') →
  page ∈ pages →
  override_path E page = Some fullPath →
  files w !! fullPath = Some data →
  resolve_bg E bgCache page
  = "data:" +:+ to_text (mime_of fullPath) +:+ ";base64," +:+ base64 data.
Proof.
  intros Hrun Hin Hpath Hfile.
  apply load_backgrounds_entries in Hrun
    as [(dataUrl & Hdefault & Hurl & Hlocal) Hothers].
  unfold resolve_bg. rewrite Hpath.
  destruct (decide (fullPath = DEFAULT_BG_PATH E)) as [-> | Hne].
  - rewrite Hdefault, (truthy_data_url _ Hurl). cbn [default].
    by apply Hlocal.
  - rewrite (Hothers _ Hne), Hfile, decide_True.
    + cbn [fmap option_fmap option_map].
      by rewrite truthy_data_url by apply local_data_url_is_data_url.
    + apply list_elem_of_omap. by exists page.
Qed.

End CacheEntries.

(** No server and no local default: the placeholder is what the page of a
    missing override is rendered with. *)
Lemma every_background_is_a_data_url_witness :
  let E := Fixture.env [] [] in
  let page := Fixture.page "a" (Some "assets/bg/none.png") None in
  let w := Fixture.world [] [] in
  ∃ bgCache w',
    load_backgrounds E 1 [page] w = Some (Ok bgCache, w') ∧
    is_data_url (resolve_bg E bgCache page).
Proof.
  intros E page w.
  destruct (load_backgrounds E 1 [page] w) as [[[bgCache|e] w']|] eqn:Hrun;
    [|by vm_compute in Hrun..].
  exists bgCache, w'. split; [done|].
  by apply (every_background_is_a_data_url E 1 [page] w w').
Defined.

Lemma missing_override_uses_the_default_witness :
  let E := Fixture.env [] [] in
  let page := Fixture.page "a" (Some "assets/bg/none.png") None in
  let w :=
    Fixture.world [("/site/assets/bg/og-background.jpg", ["J"]%byte)] [] in
  ∃ bgCache w',
    load_backgrounds E 0 [page] w = Some (Ok bgCache, w') ∧
    resolve_bg E bgCache page = resolve_bg E bgCache (without_bgImage page) ∧
    page_tree E bgCache page = page_tree E bgCache (without_bgImage page).
Proof.
  intros E page w.
  destruct (load_backgrounds E 0 [page] w) as [[[bgCache|e] w']|] eqn:Hrun;
    [|by vm_compute in Hrun..].
  exists bgCache, w'. split; [done|].
  apply (missing_override_uses_the_default E 0 [page] w w' bgCache page
           "/site/assets/bg/none.png"); [done | reflexivity |].
  vm_compute. reflexivity.
Defined.

(** The default is a JPEG, the override a PNG shared by two pages: each of
    them gets the PNG. *)
Lemma existing_override_is_used_witness :
  let E := Fixture.env [] [] in
  let pages :=
    [ Fixture.page "a" (Some "assets/bg/hero.PNG") None;
      Fixture.page "b" None None;
      Fixture.page "c" (Some "assets/bg/hero.PNG") None ] in
  let w :=
    Fixture.world
      [ ("/site/assets/bg/og-background.jpg", ["J"]%byte);
        ("/site/assets/bg/hero.PNG", ["P"]%byte) ] [] in
  ∃ bgCache w',
    load_backgrounds E 0 pages w = Some (Ok bgCache, w') ∧
    resolve_bg E bgCache (Fixture.page "c" (Some "assets/bg/hero.PNG") None)
    = "data:image/png;base64,UA==".
Proof.
  intros E pages w.
  destruct (load_backgrounds E 0 pages w) as [[[bgCache|e] w']|] eqn:Hrun;
    [|by vm_compute in Hrun..].
  exists bgCache, w'. split; [done|].
  etrans.
  - apply (existing_override_is_used E 0 pages w w' bgCache
             (Fixture.page "c" (Some "assets/bg/hero.PNG") None)
             "/site/assets/bg/hero.PNG" ["P"]%byte); [done | | reflexivity |].
    + set_solver.
    + vm_compute. reflexivity.
  - vm_compute. reflexivity.
Defined.

(** ** The extension of an image path *)

Lemma split_nonempty sep s : split sep s ≠ [].
Proof.
  destruct s as [|c s]; [done|]. cbn [split].
  destruct (Ascii.eqb c sep); [done|]. by destruct (split sep s).
Qed.

(** Splitting distributes over a separator in the middle. *)
Lemma split_app sep s t :
  split sep (s +:+ String sep t) = split sep s ++ split sep t.
Proof.
  induction s as [|c s IH]; simpl.
  - by rewrite Ascii.eqb_refl.
  - rewrite IH. destruct (Ascii.eqb c sep); [done|].
    pose proof (split_nonempty sep s). by destruct (split sep s).
Qed.

Lemma prefix_empty s : String.prefix "" s = true.
Proof. by destruct s. Qed.

(** A string without the separator is one segment. *)
Lemma split_one_segment sep s :
  includes s (String sep "") = false → split sep s = [s].
Proof.
  induction s as [|c s IH]; [done|].
  cbn [includes String.prefix split]. rewrite prefix_empty.
  destruct (Ascii.eqb_spec c sep) as [-> | Hne].
  - by destruct (ascii_dec sep sep).
  - destruct (ascii_dec sep c) as [-> | _]; [done|].
    cbn [orb]. intros Hrest. by rewrite (IH Hrest).
Qed.

Lemma toLowerCase_app s t :
  toLowerCase (s +:+ t) = toLowerCase s +:+ toLowerCase t.
Proof. induction s as [|c s IH]; [done|]. simpl. by rewrite IH. Qed.

Lemma lower_ascii_dot c : lower_ascii c = "."%char → c = "."%char.
Proof. by destruct c as [[] [] [] [] [] [] [] []]. Qed.

Lemma toLowerCase_no_dot s :
  includes s "." = false → includes (toLowerCase s) "." = false.
Proof.
  induction s as [|c s IH]; [done|].
  cbn [includes String.prefix toLowerCase]. rewrite !prefix_empty.
  destruct (ascii_dec "." c) as [<- | Hne]; [done|].
  cbn [orb]. intros Hrest.
  destruct (ascii_dec "." (lower_ascii c)) as [Hdot | _]; [|by apply IH].
  symmetry in Hdot. apply lower_ascii_dot in Hdot. congruence.
Qed.

(** The extension [loadImageAsBase64] looks up is the text after the last
    dot of the path, in lower case. *)
Lemma ext_of_last_dot (stem ext : string) :
  includes ext "." = false →
  ext_of (stem +:+ "." +:+ ext) = Some (toLowerCase ext).
Proof.
  intros Hext. unfold ext_of, pop.
  rewrite toLowerCase_app.
  change (toLowerCase ("." +:+ ext)) with (String "."%char (toLowerCase ext)).
  rewrite split_app, last_app.
  by rewrite (split_one_segment _ _ (toLowerCase_no_dot _ Hext)).
Qed.

(** X6: the MIME type of a local image is decided by the text after the last
    dot of its path, whatever its case: [png] gives image/png, [webp] gives
    image/webp, and every other extension that is not the name of a property
    objects inherit (the empty extension of a path that ends in a dot
    included) gives image/jpeg.  The data URI is that type followed by the
    base64 text of the file, and the file is read once. *)
Theorem mime_type_follows_the_last_extension
    (stem ext : string) (data : bytes) (w : World) :
  includes ext "." = false →
  Object_prototype !! toLowerCase ext = None →
  files w !! (stem +:+ "." +:+ ext) = Some data →
  loadImageAsBase64 (stem +:+ "." +:+ ext) w
  = (Ok ("data:"
           +:+ (if decide (toLowerCase ext = "png") then "image/png"
                else if decide (toLowerCase ext = "webp") then "image/webp"
                else "image/jpeg")
           +:+ ";base64," +:+ base64 data),
     after w [EvRead (stem +:+ "." +:+ ext)]).
Proof.
  intros Hext Hproto Hfile.
  rewrite (loadImageAsBase64_run _ data w Hfile).
  by rewrite (mime_of_extension _ _ (ext_of_last_dot stem ext Hext) Hproto).
Qed.

Lemma mime_type_follows_the_last_extension_witness :
  loadImageAsBase64 "/site/assets/bg.v2/Hero.final.WebP"
    (Fixture.world [("/site/assets/bg.v2/Hero.final.WebP", ["M"; "a"; "n"]%byte)] [])
  = (Ok "data:image/webp;base64,TWFu",
     after
       (Fixture.world
          [("/site/assets/bg.v2/Hero.final.WebP", ["M"; "a"; "n"]%byte)] [])
       [EvRead "/site/assets/bg.v2/Hero.final.WebP"]).
Proof.
  apply (mime_type_follows_the_last_extension "/site/assets/bg.v2/Hero.final"
           "WebP" ["M"; "a"; "n"]%byte); reflexivity.
Defined.

(** ** The fonts handed to the renderer *)

Section FontLoading.

Context (E : Env).

Lemma existsSync_file path w :
  is_Some (files w !! path) → existsSync path w = true.
Proof. intros Hfile. unfold existsSync. by rewrite bool_decide_eq_true_2. Qed.

(** X7: with the three font files in place the font loop hands the renderer
    Montserrat in the weights 700, 500 and 400, each with the bytes of its
    file, read once and in that order; and these are all the weights a page
    tree can ask for: every [fontWeight] in the tree of any page is the
    weight of a loaded font of the family the root of the tree names. *)
Theorem loaded_fonts_cover_the_template
    (w : World) (bold medium regular : bytes) :
  files w !! font_path E "Montserrat-Bold.ttf" = Some bold →
  files w !! font_path E "Montserrat-Medium.ttf" = Some medium →
  files w !! font_path E "Montserrat-Regular.ttf" = Some regular →
  let fonts :=
    [ mkFont "Montserrat" bold 700 "normal";
      mkFont "Montserrat" medium 500 "normal";
      mkFont "Montserrat" regular 400 "normal" ] in
  load_fonts E fontFiles [] w
  = (Ok (FontsLoaded fonts), after w (EvRead <$> (font_path E <$> fontFiles))) ∧
  ∀ page bg weight,
    weight ∈ font_weights (createOGTemplate page bg) →
    ∃ font,
      font ∈ fonts ∧ font_weight font = weight ∧
      style_get "fontFamily" (node_style (createOGTemplate page bg))
      = Some (Str (font_name font)).
Proof.
  intros Hbold Hmedium Hregular fonts. split.
  - unfold fontFiles. cbn [load_fonts].
    unfold bind, exists_, readFileSync, ret.
    rewrite (existsSync_file _ w) by done. rewrite Hbold.
    rewrite (existsSync_file _ (emit _ w)) by done. cbn [emit files].
    rewrite Hmedium.
    rewrite (existsSync_file _ (emit _ (emit _ w))) by done. cbn [emit files].
    rewrite Hregular.
    rewrite !emit_after, !after_after. reflexivity.
  - intros page bg weight Hin.
    change (font_weights (createOGTemplate page bg))
      with [500; 700; 500; 400] in Hin.
    change (style_get "fontFamily" (node_style (createOGTemplate page bg)))
      with (Some (Str "Montserrat")).
    assert (weight = 700 ∨ weight = 500 ∨ weight = 400) as Hweight
      by set_solver.
    destruct Hweight as [-> | [-> | ->]].
    + exists (mkFont "Montserrat" bold 700 "normal").
      split; [subst fonts; set_solver | done].
    + exists (mkFont "Montserrat" medium 500 "normal").
      split; [subst fonts; set_solver | done].
    + exists (mkFont "Montserrat" regular 400 "normal").
      split; [subst fonts; set_solver | done].
Qed.

End FontLoading.

Lemma loaded_fonts_cover_the_template_witness :
  let E := Fixture.env [] [] in
  let w := Fixture.world Fixture.fonts_present [] in
  load_fonts E fontFiles [] w
  = (Ok (FontsLoaded
           [ mkFont "Montserrat" ["B"]%byte 700 "normal";
             mkFont "Montserrat" ["M"]%byte 500 "normal";
             mkFont "Montserrat" ["R"]%byte 400 "normal" ]),
     after w (EvRead <$> (font_path E <$> fontFiles))).
Proof.
  intros E w.
  apply (loaded_fonts_cover_the_template E w ["B"]%byte ["M"]%byte ["R"]%byte);
    vm_compute; reflexivity.
Defined.

(** ** What a run leaves on disk *)

Section OutputFiles.

Context (E : Env).

Lemma prologue_dirs pages w r w1 :
  prologue E pages w = (r, w1) → dirs w ⊆ dirs w1.
Proof.
  unfold prologue, ensure_output_dir, bind, console_log, exists_, mkdirSync,
    ret, emit.
  cbn [files dirs trace].
  destruct (existsSync _ _); [|destruct (write_denied E _)];
    cbn [files dirs trace]; intros [= <- <-]; cbn [files dirs trace];
    set_solver.
Qed.

(** The loop over the page backgrounds and the font loop only read. *)
Lemma load_page_bg_world page bgCache w r w' :
  load_page_bg E page bgCache w = (r, w') →
  files w' = files w ∧ dirs w' = dirs w.
Proof.
  unfold load_page_bg, loadImageAsBase64, bind, exists_, console_log,
    console_error, readFileSync, ret, emit.
  cbn [files dirs trace].
  intros Hrun. repeat case_match; by simplify_eq/=.
Qed.

Lemma load_page_bgs_world pages : ∀ bgCache w r w',
  load_page_bgs E pages bgCache w = (r, w') →
  files w' = files w ∧ dirs w' = dirs w.
Proof.
  induction pages as [|page pages IH]; intros bgCache w r w'.
  { by intros [= <- <-]. }
  cbn [load_page_bgs]. unfold bind at 1.
  destruct (load_page_bg E page bgCache w) as [[bgCache1|e] w1] eqn:Hstep.
  - apply load_page_bg_world in Hstep as [Hf Hd].
    intros [Hf' Hd']%IH. split; congruence.
  - apply load_page_bg_world in Hstep as [Hf Hd]. by intros [= <- <-].
Qed.

Lemma load_fonts_world names : ∀ fonts w r w',
  load_fonts E names fonts w = (r, w') →
  files w' = files w ∧ dirs w' = dirs w.
Proof.
  induction names as [|fontFile names IH]; intros fonts w r w'.
  { by intros [= <- <-]. }
  cbn [load_fonts]. unfold bind at 1, exists_.
  destruct (existsSync (font_path E fontFile) w).
  - unfold bind at 1, readFileSync.
    destruct (files w !! font_path E fontFile) as [data|].
    + by intros [Hf Hd]%IH.
    + case_bool_decide; by intros [= <- <-].
  - unfold bind, console_error, console_log, ret. by intros [= <- <-].
Qed.

(** A default background that exists is only read. *)
Lemma load_default_bg_present fuel bgCache w r w' :
  existsSync (DEFAULT_BG_PATH E) w = true →
  load_default_bg E fuel bgCache w = Some (r, w') →
  files w' = files w.
Proof.
  intros Hexists. unfold load_default_bg. rewrite Hexists.
  unfold loadImageAsBase64, bind, console_log, readFileSync, ret, emit.
  cbn [files dirs trace].
  intros Hrun. repeat case_match; by simplify_eq/=.
Qed.

Lemma last_write_cons path p data ws :
  last_write path ((p, data) :: ws)
  = match last_write path ws with
    | Some later => Some later
    | None => if decide (p = path) then Some data else None
    end.
Proof.
  unfold last_write. rewrite filter_cons. cbn [fst].
  case_decide; [|by destruct (last _)].
  by destruct (filter _ ws) as [|? l] using rev_ind;
    [|rewrite app_comm_cons, !last_snoc].
Qed.

Context (bgCache : gmap string string) (fonts : list Font).

(** The contents of a path after the generation loop: what the last page
    that wrote it put there. *)
Lemma files_after_lookup ds pages path : ∀ fs,
  files_after E bgCache fonts ds pages fs !! path
  = match last_write path (omap (written_file E bgCache fonts ds) pages) with
    | Some png => Some png
    | None => fs !! path
    end.
Proof.
  induction pages as [|page pages IH]; intros fs; [done|].
  rewrite files_after_cons, IH. cbn [omap list_omap].
  destruct (written_file E bgCache fonts ds page) as [[p png]|]; [|done].
  rewrite last_write_cons.
  destruct (last_write path _); [done|].
  case_decide as Hp.
  - subst p. apply lookup_insert_eq.
  - by apply lookup_insert_ne.
Qed.

(** X8: pages that share a slug share an output file, and the loop does not
    notice: after the generation loop a path holds the PNG of the last page
    in declared order whose render and write to that path succeeded, and a
    path no page wrote holds what it held before. *)
Theorem later_page_overwrites_earlier
    (pages : list PageConfig) (w : World) (path : string) :
  files (generate_and_summarize E pages bgCache fonts w).2 !! path
  = match last_write path (omap (written_file E bgCache fonts (dirs w)) pages) with
    | Some png => Some png
    | None => files w !! path
    end.
Proof. rewrite generate_and_summarize_run. apply files_after_lookup. Qed.

Lemma last_write_is_Some ds page pages path png :
  page ∈ pages →
  written_file E bgCache fonts ds page = Some (path, png) →
  is_Some (last_write path (omap (written_file E bgCache fonts ds) pages)).
Proof.
  intros Hin Hwritten. unfold last_write.
  apply fmap_is_Some, last_is_Some.
  intros Hnil.
  assert ((path, png) ∈ filter (λ write : string * bytes, write.1 = path)
            (omap (written_file E bgCache fonts ds) pages)) as Helem.
  { apply list_elem_of_filter. split; [done|].
    apply list_elem_of_omap. by exists page. }
  rewrite Hnil in Helem. by apply elem_of_nil in Helem.
Qed.

End OutputFiles.

(** ** The whole run and the files around it *)

Section WholeRun.

Context (E : Env).

Lemma existsSync_mono path w w1 :
  files w1 = files w → dirs w ⊆ dirs w1 →
  existsSync path w = true → existsSync path w1 = true.
Proof.
  unfold existsSync. intros -> Hdirs.
  rewrite !orb_true_iff, !bool_decide_eq_true. set_solver.
Qed.

(** The font loop and the generation loop together: either no page is
    rendered and no file changes, or the run finishes with the files of the
    generation loop. *)
Lemma render_phase_cases pages bgCache w r w' :
  render_phase E pages bgCache w = (r, w') →
  (files w' = files w ∧ ∀ generated, r ≠ Ok (Finished generated))
  ∨ ∃ fonts,
      r = Ok (Finished
                (og_filename <$>
                   filter (λ p, succeeds E bgCache fonts (dirs w) p) pages)) ∧
      files w' = files_after E bgCache fonts (dirs w) pages (files w).
Proof.
  unfold render_phase, bind at 1.
  destruct (load_fonts E fontFiles [] w) as [[[fonts|code]|e] w1] eqn:Hfonts;
    apply load_fonts_world in Hfonts as [Hf Hd].
  - unfold bind, console_log. rewrite generate_and_summarize_run.
    cbn [files dirs emit]. rewrite Hf, Hd.
    intros [= <- <-]. right. by exists fonts.
  - intros [= <- <-]. by left.
  - intros [= <- <-]. by left.
Qed.

(** Before the font loop nothing but the local copy of a missing default
    background is written. *)
Lemma setup_files fuel pages w r w2 :
  setup E fuel pages w = Some (r, w2) →
  (∀ path, path ≠ DEFAULT_BG_PATH E → files w2 !! path = files w !! path) ∧
  (existsSync (DEFAULT_BG_PATH E) w = true → files w2 = files w).
Proof.
  unfold setup.
  destruct (prologue E pages w) as [[[]|e] w1] eqn:Hprologue.
  2:{ apply prologue_frame in Hprologue as (_ & _ & _ & _ & Hf).
      intros [= <- <-]. by rewrite Hf. }
  pose proof (prologue_dirs _ _ _ _ _ Hprologue) as Hdirs.
  apply prologue_frame in Hprologue as (_ & _ & _ & _ & Hf).
  unfold load_backgrounds.
  destruct (load_default_bg E fuel ∅ w1) as [[[bgCache1|e] w1']|] eqn:Hdefault;
    [| |done].
  - intros [= Hpages]. apply load_page_bgs_world in Hpages as [Hf2 _].
    rewrite Hf2. split.
    + apply load_default_bg_frame in Hdefault
        as (_ & _ & _ & _ & _ & _ & Hframe & _).
      intros path Hne. by rewrite Hframe, Hf.
    + intros Hexists.
      rewrite (load_default_bg_present _ _ _ _ _ _
                 (existsSync_mono _ _ _ Hf Hdirs Hexists) Hdefault).
      done.
  - intros [= <- <-]. split.
    + apply load_default_bg_frame in Hdefault
        as (_ & _ & _ & _ & _ & _ & Hframe & _).
      intros path Hne. by rewrite Hframe, Hf.
    + intros Hexists.
      rewrite (load_default_bg_present _ _ _ _ _ _
                 (existsSync_mono _ _ _ Hf Hdirs Hexists) Hdefault).
      done.
Qed.

(** X9: a run writes nothing but the PNGs of its pages and, when the default
    background is missing, the local copy of it.  Whatever the outcome
    (finished, exited, rejected), every path that is not the output path of
    a page keeps its contents, or stays absent; this includes the default
    background itself whenever it exists when the run starts. *)
Theorem run_leaves_other_files_alone
    (fuel : nat) (pages : list PageConfig) (w w' : World) (outcome : Outcome)
    (path : string) :
  main E fuel pages w = Some (outcome, w') →
  (∀ page, page ∈ pages → output_path E page ≠ path) →
  path ≠ DEFAULT_BG_PATH E ∨ existsSync (DEFAULT_BG_PATH E) w = true →
  files w' !! path = files w !! path.
Proof.
  intros Hrun Houtputs Hdefault. unfold main in Hrun.
  destruct (setup E fuel pages w) as [[r w2]|] eqn:Hsetup; [|done].
  apply setup_files in Hsetup as [Hframe Hpresent].
  assert (files w2 !! path = files w !! path) as Hsame.
  { destruct Hdefault as [Hne | Hexists];
      [by apply Hframe | by rewrite Hpresent]. }
  destruct r as [bgCache|e].
  2:{ injection Hrun as <- <-. done. }
  destruct (render_phase E pages bgCache w2) as [r' w3] eqn:Hrender.
  assert (files w' = files w3) as ->.
  { destruct r'; by injection Hrun as <- <-. }
  apply render_phase_cases in Hrender as [[-> _] | (fonts & _ & ->)];
    [done|].
  rewrite <- Hsame. apply files_after_untouched.
  intros page Hin _. by apply Houtputs.
Qed.

(** X10: the summary does not name a file that is not there.  When a run
    finishes, every file name it reports as generated is [og-{slug}.png] for
    a page of the list, and [public/og] holds a file of that name when the
    run ends. *)
Theorem summary_names_existing_files
    (fuel : nat) (pages : list PageConfig) (w w' : World)
    (generated : list string) (filename : string) :
  main E fuel pages w = Some (Finished generated, w') →
  filename ∈ generated →
  is_Some (files w' !! join E [OUTPUT_DIR E; filename]) ∧
  ∃ page, page ∈ pages ∧ filename = og_filename page.
Proof.
  intros Hrun Hin. unfold main in Hrun.
  destruct (setup E fuel pages w) as [[[bgCache|e] w2]|]; [|done|done].
  destruct (render_phase E pages bgCache w2) as [r w3] eqn:Hrender.
  apply render_phase_cases in Hrender as [[_ Hno] | (fonts & -> & Hfiles)].
  { destruct r as [o|e]; [|done]. injection Hrun as -> <-. by destruct (Hno generated). }
  injection Hrun as <- <-.
  apply list_elem_of_fmap in Hin as (page & -> & Hpage).
  apply list_elem_of_filter in Hpage as [Hok Hpage].
  split; [|by exists page].
  rewrite Hfiles, files_after_lookup.
  unfold succeeds in Hok.
  destruct (page_outcome E bgCache fonts (dirs w2) page) as [png|e]
    eqn:Houtcome; [|done].
  destruct (last_write_is_Some E bgCache fonts (dirs w2) page pages
              (output_path E page) png Hpage) as [last Hlast].
  { unfold written_file. by rewrite Houtcome. }
  fold (output_path E page). by rewrite Hlast.
Qed.

End WholeRun.

(** A run with one page that fails: the fonts, the default background and a
    stale image of an earlier build are all as they were. *)
Lemma run_leaves_other_files_alone_witness :
  let E := Fixture.env [] [] in
  let pages :=
    [ Fixture.page "a" None None;
      Fixture.page "b" None (Some (mkAccent "not-a-color" "#000" "#fff")) ] in
  let w :=
    Fixture.world
      (("/site/assets/bg/og-background.jpg", ["J"]%byte)
         :: ("/site/public/og/og-old.png", ["O"]%byte)
         :: Fixture.fonts_present)
      ["/site/public/og"] in
  ∃ outcome w',
    main E 0 pages w = Some (outcome, w') ∧
    files w' !! "/site/public/og/og-old.png"
    = files w !! "/site/public/og/og-old.png" ∧
    files w' !! DEFAULT_BG_PATH E = files w !! DEFAULT_BG_PATH E.
Proof.
  intros E pages w.
  destruct (main E 0 pages w) as [[outcome w']|] eqn:Hrun;
    [|by vm_compute in Hrun].
  exists outcome, w'. split; [done|].
  split.
  - apply (run_leaves_other_files_alone E 0 pages w w' outcome _ Hrun).
    + intros page Hin.
      repeat (apply elem_of_cons in Hin as [-> | Hin]; [by vm_compute|]).
      by apply elem_of_nil in Hin.
    + left. by vm_compute.
  - apply (run_leaves_other_files_alone E 0 pages w w' outcome _ Hrun).
    + intros page Hin.
      repeat (apply elem_of_cons in Hin as [-> | Hin]; [by vm_compute|]).
      by apply elem_of_nil in Hin.
    + right. vm_compute. reflexivity.
Defined.

Lemma summary_names_existing_files_witness :
  let E := Fixture.env [] [] in
  let pages :=
    [ Fixture.page "a" None None;
      Fixture.page "b" None (Some (mkAccent "not-a-color" "#000" "#fff"));
      Fixture.page "a" None None ] in
  let w :=
    Fixture.world
      (("/site/assets/bg/og-background.jpg", ["J"]%byte) :: Fixture.fonts_present)
      [] in
  ∃ w',
    main E 0 pages w = Some (Finished ["og-a.png"; "og-a.png"], w') ∧
    is_Some (files w' !! "/site/public/og/og-a.png").
Proof.
  intros E pages w.
  destruct (main E 0 pages w) as [[outcome w']|] eqn:Hrun;
    [|by vm_compute in Hrun].
  assert (outcome = Finished ["og-a.png"; "og-a.png"]) as ->.
  { vm_compute in Hrun. by injection Hrun as <- _. }
  exists w'. split; [done|].
  apply (summary_names_existing_files E 0 pages w w' _ "og-a.png" Hrun).
  set_solver.
Defined.

(** ** The font downloader *)

Section FontDownloader.

Context (E : Env).

(** The [request] closure of the font downloader settles where that of the
    generator does, with the same requests. *)
Lemma fonts_request_eq fuel : ∀ url dest w,
  DownloadFonts.request E fuel url dest w
  = match request E fuel url w with
    | None => None
    | Some (Ok data, w1) =>
        match writeFileSync E dest data w1 with
        | (Ok _, w2) => Some (DownloadFonts.Saved, w2)
        | (Throw e, w2) => Some (DownloadFonts.Crashed e, w2)
        end
    | Some (Throw (HttpError status), w1) =>
        Some (DownloadFonts.Failed
                ("Error: Failed to download: " +:+ pretty status), w1)
    | Some (Throw e, w1) => Some (DownloadFonts.Failed (error_text e), w1)
    end.
Proof.
  induction fuel as [|fuel IH]; intros url dest w; [done|].
  cbn [DownloadFonts.request request].
  destruct (https_get E url) as [msg|response]; [done|].
  destruct (if bool_decide (statusCode response = 301)
               || bool_decide (statusCode response = 302)
            then truthy (location response) else None) as [target|];
    [apply IH|].
  case_bool_decide; [done|].
  unfold read_body. by destruct (stream_error response).
Qed.

(** X11: the font downloader and the generator download alike.  For every
    URL, [downloadFile(url, dest)] of the setup script issues the requests
    [downloadFile(url)] of the generator issues and settles exactly when it
    does: where the generator's resolves with the body, the body is written
    to [dest]; where the generator's rejects, this one rejects, with
    [Failed to download: {status}] in place of [HTTP {status}]. *)
Theorem font_download_follows_the_same_redirects
    (fuel : nat) (url dest : string) (w : World) :
  DownloadFonts.downloadFile E fuel url dest w
  = match downloadFile E fuel url w with
    | None => None
    | Some (Ok data, w1) =>
        match writeFileSync E dest data w1 with
        | (Ok _, w2) => Some (DownloadFonts.Saved, w2)
        | (Throw e, w2) => Some (DownloadFonts.Crashed e, w2)
        end
    | Some (Throw (HttpError status), w1) =>
        Some (DownloadFonts.Failed
                ("Error: Failed to download: " +:+ pretty status), w1)
    | Some (Throw e, w1) => Some (DownloadFonts.Failed (error_text e), w1)
    end.
Proof. apply fonts_request_eq. Qed.

(** X12: a font is saved from inside the stream's 'end' handler.  After any
    chain of followed redirects that ends in a 200 response whose body
    arrives, the body is written to [dest] and the download resolves when
    the file can be opened for writing: the process may write [dest], [dest]
    is not a directory, and the directory [dest] lies in exists.  When it
    cannot (the directory is missing, say, as on a tree where nothing has
    created it), the download neither resolves nor rejects: the exception
    of [writeFileSync] escapes the promise, so the [catch] block of the
    caller does not see it, and nothing is written. *)
Theorem font_download_saves_the_body
    (url last dest : string) (visited : list string) (response : Response)
    (fuel : nat) (w : World) :
  redirect_chain E url visited last →
  https_get E last = Responds response →
  statusCode response = 200 →
  stream_error response = None →
  (length visited < fuel)%nat →
  let body := concat (chunks response) in
  let w1 := after w (EvDownload url :: (EvGet <$> visited ++ [last])) in
  DownloadFonts.downloadFile E fuel url dest w
  = Some (if write_denied E dest
          then (DownloadFonts.Crashed (FsError "EACCES" dest), w1)
          else if bool_decide (dest ∈ dirs w)
          then (DownloadFonts.Crashed (FsError "EISDIR" dest), w1)
          else if bool_decide (dirname E dest ∈ dirs w)
          then (DownloadFonts.Saved,
                mkWorld (<[dest := body]> (files w)) (dirs w)
                  (trace w1 ++ [EvWrite dest body]))
          else (DownloadFonts.Crashed (FsError "ENOENT" dest), w1)).
Proof.
  intros Hchain Hget Hstatus Hstream Hfuel body w1.
  unfold DownloadFonts.downloadFile. rewrite fonts_request_eq.
  replace fuel with (length visited + S (fuel - S (length visited)))%nat by lia.
  rewrite (request_along_chain E _ _ _ Hchain).
  rewrite (request_terminal E _ _ response); [|done|left; lia].
  rewrite bool_decide_eq_false_2 by (intros ?; lia).
  unfold read_body. rewrite Hstream.
  rewrite !emit_after, !after_after.
  replace ([EvDownload url] ++ (EvGet <$> visited) ++ [EvGet last])
    with (EvDownload url :: (EvGet <$> visited ++ [last]))
    by (by rewrite fmap_app).
  unfold writeFileSync. cbn [after dirs].
  destruct (write_denied E dest); [done|]. by repeat case_bool_decide.
Qed.

Lemma existsSync_false_file path w :
  existsSync path w = false → files w !! path = None.
Proof.
  unfold existsSync. intros [Hno _]%orb_false_iff.
  apply bool_decide_eq_false in Hno. by apply eq_None_not_Some.
Qed.

Lemma existsSync_subseteq path w w' :
  files w ⊆ files w' → dirs w ⊆ dirs w' →
  existsSync path w = true → existsSync path w' = true.
Proof.
  unfold existsSync. intros Hfiles Hdirs.
  rewrite !orb_true_iff, !bool_decide_eq_true.
  intros [[data Hfile] | Hdir]; [left | right; set_solver].
  exists data. by eapply lookup_weaken.
Qed.

(** One download writes at most its destination. *)
Lemma fonts_downloadFile_world fuel url dest w d w' :
  DownloadFonts.downloadFile E fuel url dest w = Some (d, w') →
  dirs w' = dirs w ∧
  match d with
  | DownloadFonts.Saved => ∃ data, files w' = <[dest := data]> (files w)
  | _ => files w' = files w
  end.
Proof.
  unfold DownloadFonts.downloadFile. rewrite fonts_request_eq.
  destruct (request E fuel url _) as [[r w1]|] eqn:Hrequest; [|done].
  apply request_trace in Hrequest as [urls ->].
  destruct r as [data|e].
  - unfold writeFileSync.
    destruct (write_denied E dest); [by intros [= <- <-]|].
    repeat case_bool_decide; try by intros [= <- <-].
    intros [= <- <-]. split; [done|]. by exists data.
  - by destruct e; intros [= <- <-].
Qed.

(** The loop over the fonts: files are only added, and when it comes to its
    end every font is there. *)
Lemma download_fonts_run fuel fonts : ∀ w run w',
  DownloadFonts.download_fonts E fuel fonts w = Some (run, w') →
  files w ⊆ files w' ∧ dirs w' = dirs w ∧
  (run = DownloadFonts.Ready →
   ∀ font, font ∈ fonts →
     existsSync (join E [DownloadFonts.FONTS_DIR E; DownloadFonts.name font]) w'
     = true).
Proof.
  induction fonts as [|font fonts IH]; intros w run w'.
  { intros [= <- <-]. split_and!; [done..|]. by intros _ font Hin%elem_of_nil. }
  cbn [DownloadFonts.download_fonts].
  destruct (existsSync _ w) eqn:Hexists.
  - intros (Hfiles & Hdirs & Hready)%IH. split_and!; [done..|].
    intros -> f [-> | Hin]%elem_of_cons; [|by apply Hready].
    apply (existsSync_subseteq _ w); [done | by rewrite Hdirs | done].
  - destruct (DownloadFonts.downloadFile E fuel _ _ _) as [[d w2]|] eqn:Hdl;
      [|done].
    apply fonts_downloadFile_world in Hdl as [Hdirs2 Hfiles2].
    cbn [emit files dirs] in Hdirs2, Hfiles2.
    apply existsSync_false_file in Hexists.
    destruct d as [|error|e].
    + destruct Hfiles2 as [data Hsaved].
      intros (Hfiles & Hdirs & Hready)%IH. cbn [emit files dirs] in *.
      split_and!; [|congruence|].
      * etrans; [|done]. rewrite Hsaved. by apply insert_subseteq.
      * intros -> f [-> | Hin]%elem_of_cons; [|by apply Hready].
        apply existsSync_file.
        exists data. eapply lookup_weaken; [|done].
        rewrite Hsaved. apply lookup_insert_eq.
    + intros [= <- <-]. cbn [emit files dirs]. rewrite Hfiles2. by split_and!.
    + intros [= <- <-]. rewrite Hfiles2. by split_and!.
Qed.

End FontDownloader.

Section FontDownloaderRuns.

Context (E : Env).

Lemma banner_world w r w1 :
  DownloadFonts.banner E w = (r, w1) →
  files w1 = files w ∧ dirs w ⊆ dirs w1 ∧
  (r = Ok tt → existsSync (DownloadFonts.FONTS_DIR E) w1 = true).
Proof.
  unfold DownloadFonts.banner, DownloadFonts.ensure_fonts_dir, bind,
    console_log, exists_, mkdirSync, ret, emit.
  cbn [files dirs trace].
  destruct (existsSync _ _) eqn:Hexists; [|destruct (write_denied E _)];
    cbn [files dirs trace]; intros [= <- <-]; cbn [files dirs trace];
    (split_and!; [done | set_solver |]); [|done|].
  - intros _. by rewrite <- Hexists.
  - intros _. unfold existsSync. cbn [files dirs].
    rewrite (bool_decide_eq_true_2 (_ ∈ _)) by set_solver.
    apply orb_true_r.
Qed.

(** X13: the font downloader never touches a file that exists.  Whatever
    the server answers and however the run ends, every file that is there
    when the run starts has the same contents when it ends: a font that is
    already in place is skipped, not refreshed, and only missing fonts are
    written. *)
Theorem existing_files_are_never_overwritten
    (fuel : nat) (w w' : World) (run : DownloadFonts.Run)
    (path : string) (data : bytes) :
  DownloadFonts.main E fuel w = Some (run, w') →
  files w !! path = Some data →
  files w' !! path = Some data.
Proof.
  unfold DownloadFonts.main.
  destruct (DownloadFonts.banner E w) as [[[]|e] w1] eqn:Hbanner;
    apply banner_world in Hbanner as (Hfiles1 & _ & _).
  2:{ intros [= <- <-]. by rewrite Hfiles1. }
  destruct (DownloadFonts.download_fonts E fuel DownloadFonts.FONTS w1)
    as [[run' w2]|] eqn:Hloop; [|done].
  apply download_fonts_run in Hloop as (Hsub & _ & _).
  rewrite Hfiles1 in Hsub.
  intros Hrun Hfile.
  assert (files w' = files w2) as ->.
  { by destruct run'; injection Hrun as <- <-. }
  by eapply lookup_weaken.
Qed.

(** When the setup script ends normally the directory and the three fonts
    are there. *)
Lemma ready_fonts_exist fuel w w' :
  DownloadFonts.main E fuel w = Some (DownloadFonts.Ready, w') →
  existsSync (DownloadFonts.FONTS_DIR E) w' = true ∧
  ∀ font, font ∈ DownloadFonts.FONTS →
    existsSync (join E [DownloadFonts.FONTS_DIR E; DownloadFonts.name font]) w'
    = true.
Proof.
  unfold DownloadFonts.main.
  destruct (DownloadFonts.banner E w) as [[[]|e] w1] eqn:Hbanner; [|done].
  apply banner_world in Hbanner as (_ & _ & Hdir). specialize (Hdir eq_refl).
  destruct (DownloadFonts.download_fonts E fuel DownloadFonts.FONTS w1)
    as [[run' w2]|] eqn:Hloop; [|done].
  apply download_fonts_run in Hloop as (Hsub & Hdirs & Hready).
  destruct run'; intros [= <-].
  rewrite !emit_after, after_after. split.
  - rewrite existsSync_after.
    apply (existsSync_subseteq _ w1); [done | by rewrite Hdirs | done].
  - intros font Hin. rewrite existsSync_after. by apply (Hready eq_refl).
Qed.

(** The generator's steps before the font loop remove nothing. *)
Lemma setup_exists fuel pages w r w2 path :
  setup E fuel pages w = Some (r, w2) →
  existsSync path w = true → existsSync path w2 = true.
Proof.
  intros Hsetup Hexists.
  assert (dirs w ⊆ dirs w2) as Hdirs.
  { unfold setup in Hsetup.
    destruct (prologue E pages w) as [[[]|e] w1] eqn:Hprologue;
      apply prologue_dirs in Hprologue; [|by injection Hsetup as <- <-].
    unfold load_backgrounds in Hsetup.
    destruct (load_default_bg E fuel ∅ w1) as [[[bgCache1|e] w1']|] eqn:Hdefault;
      [| |done];
      apply load_default_bg_frame in Hdefault
        as (_ & _ & _ & _ & _ & _ & _ & Hdirs1 & _).
    - injection Hsetup as Hpages.
      apply load_page_bgs_world in Hpages as [_ ->]. set_solver.
    - injection Hsetup as <- <-. set_solver. }
  apply setup_files in Hsetup as [Hframe Hpresent].
  destruct (decide (path = DEFAULT_BG_PATH E)) as [-> | Hne].
  - apply (existsSync_mono _ w); [by apply Hpresent | done | done].
  - unfold existsSync in *. rewrite Hframe by done.
    apply orb_true_iff in Hexists as [Hfile | Hdir]; apply orb_true_iff;
      [by left | right].
    apply bool_decide_eq_true in Hdir. apply bool_decide_eq_true. set_solver.
Qed.

(** The font loop exits only over a font that is not there. *)
Lemma load_fonts_exit names : ∀ fonts w code w',
  load_fonts E names fonts w = (Ok (ProcessExit code), w') →
  ∃ fontFile, fontFile ∈ names ∧ existsSync (font_path E fontFile) w = false.
Proof.
  induction names as [|fontFile names IH]; intros fonts w code w'; [done|].
  cbn [load_fonts]. unfold bind at 1, exists_.
  destruct (existsSync (font_path E fontFile) w) eqn:Hexists.
  - unfold bind at 1, readFileSync.
    destruct (files w !! font_path E fontFile) as [data|].
    + intros (f & Hin & Hno)%IH. exists f. split; [by right | done].
    + by case_bool_decide.
  - intros _. exists fontFile. split; [by left | done].
Qed.

(** X14: the setup script leaves what the generator asks for.  After a run
    of the font downloader that ends normally, each of the three font files
    the generator loads exists, and no run of the generator started from
    there ends by [process.exit]: the [Font not found] exit is not taken,
    whatever the pages, the server and the backgrounds do. *)
Theorem fonts_ready_for_the_generator
    (fuel fuel' : nat) (pages : list PageConfig) (w w1 w2 : World)
    (outcome : Outcome) :
  DownloadFonts.main E fuel w = Some (DownloadFonts.Ready, w1) →
  main E fuel' pages w1 = Some (outcome, w2) →
  (∀ fontFile, fontFile ∈ fontFiles →
     existsSync (font_path E fontFile) w1 = true) ∧
  ∀ code, outcome ≠ Exited code.
Proof.
  intros [_ Hready]%ready_fonts_exist Hrun.
  assert (∀ fontFile, fontFile ∈ fontFiles →
            existsSync (font_path E fontFile) w1 = true) as Hfonts.
  { intros fontFile Hin.
    assert (∃ font, font ∈ DownloadFonts.FONTS
                    ∧ DownloadFonts.name font = fontFile) as (font & Hfont & <-).
    { assert (fontFile ∈ DownloadFonts.name <$> DownloadFonts.FONTS) as Hname.
      { unfold fontFiles in Hin. unfold DownloadFonts.FONTS.
        cbn [fmap list_fmap DownloadFonts.name]. set_solver. }
      apply list_elem_of_fmap in Hname as (font & -> & Hfont).
      by exists font. }
    by apply Hready. }
  split; [done|]. intros code ->.
  unfold main in Hrun.
  destruct (setup E fuel' pages w1) as [[[bgCache|e] w3]|] eqn:Hsetup;
    [|done|done].
  unfold render_phase, bind at 1 in Hrun.
  destruct (load_fonts E fontFiles [] w3) as [[[fonts|code']|e] w4] eqn:Hloop.
  - unfold bind, console_log in Hrun.
    by rewrite generate_and_summarize_run in Hrun.
  - apply load_fonts_exit in Hloop as (fontFile & Hin & Hno).
    rewrite (setup_exists _ _ _ _ _ _ Hsetup (Hfonts _ Hin)) in Hno. done.
  - done.
Qed.

Lemma download_fonts_skip fuel fonts : ∀ w,
  (∀ font, font ∈ fonts →
     existsSync (join E [DownloadFonts.FONTS_DIR E; DownloadFonts.name font]) w
     = true) →
  DownloadFonts.download_fonts E fuel fonts w
  = Some (DownloadFonts.Ready,
          after w (EvLog <$> ((λ font, "⏭️  Skipping " +:+ DownloadFonts.name font
                                         +:+ " (already exists)") <$> fonts))).
Proof.
  induction fonts as [|font fonts IH]; intros w Hall.
  { unfold after. cbn. rewrite (right_id_L [] (++)). by destruct w. }
  cbn [DownloadFonts.download_fonts]. rewrite Hall by (by left).
  rewrite IH.
  - by rewrite emit_after, after_after.
  - intros f Hin. rewrite emit_after, existsSync_after. apply Hall. by right.
Qed.

(** X15: the setup script is idempotent.  Run again after a run that ended
    normally, it issues no request and writes nothing, even when it is
    allowed no request at all: it prints its banner, skips each of the three
    fonts, and ends normally again. *)
Theorem second_run_downloads_nothing (fuel fuel' : nat) (w w' : World) :
  DownloadFonts.main E fuel w = Some (DownloadFonts.Ready, w') →
  DownloadFonts.main E fuel' w'
  = Some (DownloadFonts.Ready,
          after w'
            (EvLog <$>
               [ nl +:+ "🔤 Font Downloader";
                 repeat_str "═" 40;
                 "⏭️  Skipping Montserrat-Regular.ttf (already exists)";
                 "⏭️  Skipping Montserrat-Medium.ttf (already exists)";
                 "⏭️  Skipping Montserrat-Bold.ttf (already exists)";
                 nl +:+ repeat_str "═" 40;
                 "✅ Fonts ready!" +:+ nl ])).
Proof.
  intros [Hdir Hfonts]%ready_fonts_exist.
  unfold DownloadFonts.main, DownloadFonts.banner,
    DownloadFonts.ensure_fonts_dir, bind, console_log, exists_, ret.
  rewrite !emit_after, !after_after, existsSync_after, Hdir.
  rewrite download_fonts_skip.
  - by rewrite !emit_after, !after_after.
  - intros font Hin. rewrite existsSync_after. by apply Hfonts.
Qed.

End FontDownloaderRuns.

(** ** The gallery of the start page *)

Lemma endsWith_app s suffix : Home.endsWith (s +:+ suffix) suffix = true.
Proof.
  induction s as [|c s IH]; simpl.
  - change ("" +:+ suffix) with suffix.
    destruct suffix; [done|]. cbn [Home.endsWith].
    by rewrite String.eqb_refl.
  - rewrite IH. apply orb_true_r.
Qed.

Lemma endsWith_prepend p s suffix :
  Home.endsWith s suffix = true → Home.endsWith (p +:+ s) suffix = true.
Proof.
  intros Hs. induction p as [|c p IH]; [done|].
  rewrite (eq_refl : String c p +:+ s = String c (p +:+ s)).
  cbn [Home.endsWith]. rewrite IH. apply orb_true_r.
Qed.

Lemma substring_all s : String.substring 0 (String.length s) s = s.
Proof. induction s as [|c s IH]; [done|]. simpl. by rewrite IH. Qed.

Lemma prefix_cons a p b s :
  String.prefix (String a p) (String b s)
  = if Ascii.eqb a b then String.prefix p s else false.
Proof.
  cbn [String.prefix]. destruct (ascii_dec a b) as [-> | Hne].
  - by rewrite Ascii.eqb_refl.
  - by apply Ascii.eqb_neq in Hne as ->.
Qed.

Lemma append_cons a s t : String a s +:+ t = String a (s +:+ t).
Proof. reflexivity. Qed.

Lemma append_nil_l t : "" +:+ t = t.
Proof. reflexivity. Qed.

(** No name that lacks [.png] begins with it once the extension is added:
    the extension cannot overlap a proper prefix of itself. *)
Lemma prefix_png_app c s :
  String.prefix ".png" (String c s) = false →
  String.prefix ".png" (String c (s +:+ ".png")) = false.
Proof.
  destruct s as [|c2 [|c3 [|c4 s]]];
    rewrite ?append_cons, ?append_nil_l, !prefix_cons, ?prefix_empty;
    repeat match goal with
           | |- context [Ascii.eqb ?a ?b] =>
               destruct (Ascii.eqb_spec a b); try done
           end.
Qed.

(** Removing the first [.png] of a name that has none before its extension
    removes the extension. *)
Lemma replace_png_suffix s :
  includes s ".png" = false → Home.replace ".png" "" (s +:+ ".png") = s.
Proof.
  induction s as [|c s IH]; [done|].
  cbn [includes]. intros [Hhead Htail]%orb_false_iff.
  rewrite append_cons. cbn [Home.replace].
  by rewrite (prefix_png_app _ _ Hhead), (IH Htail).
Qed.

(** X16: the gallery of the start page finds what the generator writes.
    The file name the generator gives a page passes the gallery's filter,
    whatever the slug; and when the slug does not contain [.png], the slug
    the gallery shows under the image, and in its alt text, is the slug of
    the page. *)
Theorem gallery_shows_the_slug (page : PageConfig) :
  Home.listed (og_filename page) = true ∧
  (includes (slug page) ".png" = false →
   Home.shown_slug (og_filename page) = slug page ∧
   Home.img_alt (og_filename page) = "OG Image: " +:+ slug page).
Proof.
  split.
  { apply endsWith_prepend, endsWith_app. }
  intros Hslug.
  assert (Home.shown_slug (og_filename page) = slug page) as Hshown.
  { unfold Home.shown_slug, og_filename.
    change ("og-" +:+ slug page +:+ ".png")
      with (String "o" (String "g" (String "-" (slug page +:+ ".png")))).
    cbn [Home.replace String.prefix]. simpl ascii_dec. cbv iota.
    rewrite prefix_empty. simpl String.substring.
    rewrite Nat.sub_0_r, substring_all.
    by apply replace_png_suffix. }
  split; [done|].
  unfold Home.img_alt. by rewrite Hshown.
Qed.

Lemma gallery_shows_the_slug_witness :
  Home.listed "og-v1.png-notes.png" = true ∧
  Home.listed "og-blog-getting-started.png" = true ∧
  Home.shown_slug "og-blog-getting-started.png" = "blog-getting-started" ∧
  Home.img_alt "og-blog-getting-started.png" = "OG Image: blog-getting-started".
Proof.
  split.
  - apply (gallery_shows_the_slug (Fixture.page "v1.png-notes" None None)).
  - split.
    + apply (gallery_shows_the_slug
               (Fixture.page "blog-getting-started" None None)).
    + apply (gallery_shows_the_slug
               (Fixture.page "blog-getting-started" None None)).
      reflexivity.
Defined.

(** Only the first [.png] is removed: a slug that contains one is shown with
    the extension in place of it. *)
Example gallery_slug_with_extension :
  og_filename (Fixture.page "v1.png-notes" None None) = "og-v1.png-notes.png" ∧
  Home.shown_slug "og-v1.png-notes.png" = "v1-notes.png".
Proof. split; reflexivity. Qed.

(** A file of the directory that the generator did not write is listed with
    whatever its name leaves. *)
Example gallery_foreign_file :
  Home.listed "blog-logo.png" = true ∧
  Home.shown_slug "blog-logo.png" = "bllogo" ∧
  Home.listed "og-home.PNG" = false.
Proof. split_and!; reflexivity. Qed.

(** ** Runs of the font downloader *)

Lemma font_download_saves_the_body_witness :
  let E := FontFixture.env [] in
  let url :=
    "https://github.com/JulietaUla/Montserrat/raw/master/fonts/ttf/Montserrat-Bold.ttf" in
  let dest := "/site/assets/fonts/Montserrat-Bold.ttf" in
  ∃ w',
    DownloadFonts.downloadFile E 2 url dest
      (Fixture.world [] ["/site/assets/fonts"])
    = Some (DownloadFonts.Saved, w') ∧
    files w' !! dest = Some ["T"; "T"; "F"]%byte.
Proof.
  intros E url dest.
  pose proof (font_download_saves_the_body E url
                "https://raw.example/Montserrat-Bold.ttf" dest [url]
                (mkResponse 200 None [["T"; "T"]; ["F"]]%byte None)
                2 (Fixture.world [] ["/site/assets/fonts"])) as Hrun.
  cbv zeta in Hrun. eexists. split.
  - apply Hrun; [|reflexivity..|simpl; lia].
    eapply chain_hop; [|apply chain_done].
    eexists. split_and!; [reflexivity | by right | reflexivity | done].
  - vm_compute. reflexivity.
Defined.

(** The same download on a tree where nothing has created the fonts
    directory: the body arrives, the write throws, and the promise is left
    unsettled. *)
Example font_download_into_a_missing_directory :
  DownloadFonts.downloadFile (FontFixture.env []) 2
    "https://github.com/JulietaUla/Montserrat/raw/master/fonts/ttf/Montserrat-Bold.ttf"
    "/site/assets/fonts/Montserrat-Bold.ttf" (Fixture.world [] [])
  = Some (DownloadFonts.Crashed
            (FsError "ENOENT" "/site/assets/fonts/Montserrat-Bold.ttf"),
          after (Fixture.world [] [])
            [ EvDownload
                "https://github.com/JulietaUla/Montserrat/raw/master/fonts/ttf/Montserrat-Bold.ttf";
              EvGet
                "https://github.com/JulietaUla/Montserrat/raw/master/fonts/ttf/Montserrat-Bold.ttf";
              EvGet "https://raw.example/Montserrat-Bold.ttf" ]).
Proof. vm_compute. reflexivity. Qed.

(** One font is in place and the server has another version of it: the
    run fetches the two that are missing and leaves the third as it is. *)
Lemma existing_files_are_never_overwritten_witness :
  let E := FontFixture.env [] in
  let w :=
    Fixture.world [("/site/assets/fonts/Montserrat-Medium.ttf", ["M"]%byte)] [] in
  ∃ run w',
    DownloadFonts.main E 2 w = Some (run, w') ∧
    files w' !! "/site/assets/fonts/Montserrat-Medium.ttf" = Some ["M"]%byte.
Proof.
  intros E w.
  destruct (DownloadFonts.main E 2 w) as [[run w']|] eqn:Hrun;
    [|by vm_compute in Hrun].
  exists run, w'. split; [done|].
  apply (existing_files_are_never_overwritten E 2 w w' run _ _ Hrun).
  vm_compute. reflexivity.
Defined.

(** A first build: the setup script on an empty tree, then the generator
    with no server for the default background. *)
Lemma fonts_ready_for_the_generator_witness :
  let E := FontFixture.env [] in
  ∃ w1 outcome w2,
    DownloadFonts.main E 2 (Fixture.world [] [])
    = Some (DownloadFonts.Ready, w1) ∧
    main E 1 PAGES w1 = Some (outcome, w2) ∧
    (∀ fontFile, fontFile ∈ fontFiles →
       existsSync (font_path E fontFile) w1 = true) ∧
    ∀ code, outcome ≠ Exited code.
Proof.
  intros E.
  destruct (DownloadFonts.main E 2 (Fixture.world [] [])) as [[run w1]|] eqn:Hsetup;
    [|by vm_compute in Hsetup].
  assert (run = DownloadFonts.Ready) as ->.
  { vm_compute in Hsetup. by injection Hsetup as <- _. }
  destruct (main E 1 PAGES w1) as [[outcome w2]|] eqn:Hrun.
  2:{ exfalso. vm_compute in Hsetup. injection Hsetup as <-.
      by vm_compute in Hrun. }
  exists w1, outcome, w2. split; [done|]. split; [done|].
  exact (fonts_ready_for_the_generator E 2 1 PAGES _ w1 w2 outcome Hsetup Hrun).
Defined.

Lemma second_run_downloads_nothing_witness :
  let E := FontFixture.env [] in
  ∃ w',
    DownloadFonts.main E 2 (Fixture.world [] [])
    = Some (DownloadFonts.Ready, w') ∧
    DownloadFonts.main E 0 w'
    = Some (DownloadFonts.Ready,
            after w'
              (EvLog <$>
                 [ nl +:+ "🔤 Font Downloader";
                   repeat_str "═" 40;
                   "⏭️  Skipping Montserrat-Regular.ttf (already exists)";
                   "⏭️  Skipping Montserrat-Medium.ttf (already exists)";
                   "⏭️  Skipping Montserrat-Bold.ttf (already exists)";
                   nl +:+ repeat_str "═" 40;
                   "✅ Fonts ready!" +:+ nl ])).
Proof.
  intros E.
  destruct (DownloadFonts.main E 2 (Fixture.world [] [])) as [[run w']|] eqn:Hrun;
    [|by vm_compute in Hrun].
  assert (run = DownloadFonts.Ready) as ->.
  { vm_compute in Hrun. by injection Hrun as <- _. }
  exists w'. split; [done|].
  apply (second_run_downloads_nothing E 2 0 (Fixture.world [] []) w').
  exact Hrun.
Defined.

(** A font path that cannot be written: the body arrives, the process
    aborts, and the [catch] block prints nothing. *)
Example unwritable_font_aborts_the_setup :
  let E := FontFixture.env ["/site/assets/fonts/Montserrat-Regular.ttf"] in
  ∃ w',
    DownloadFonts.main E 2 (Fixture.world [] [])
    = Some (DownloadFonts.Aborted
              (FsError "EACCES" "/site/assets/fonts/Montserrat-Regular.ttf"),
            w') ∧
    errors (trace w') = [] ∧ files w' = ∅.
Proof. intros E. eexists. split_and!; vm_compute; reflexivity. Qed.

(** A font the server does not have: the run exits with code 1 at the first
    failure and asks for no later font. *)
Example missing_font_on_the_server_exits :
  let E := Fixture.env [] [] in
  ∃ w',
    DownloadFonts.main E 2 (Fixture.world [] []) = Some (DownloadFonts.Exit 1, w') ∧
    errors (trace w') = ["   ❌ Failed: Error: getaddrinfo ENOTFOUND"] ∧
    downloads (trace w')
    = ["https://github.com/JulietaUla/Montserrat/raw/master/fonts/ttf/Montserrat-Regular.ttf"].
Proof. intros E. eexists. split_and!; vm_compute; reflexivity. Qed.
